(** * dcc_backend_common.logger: focused tracebacks and logger wiring

    A shallow embedding of [logger/focused_traceback.py] and of the pure
    parts of [logger/logger.py], followed by the properties the design
    document states about them.

    Conventions.
    - A Python [str] is a list of Unicode code points ([N]); [len] and
      slicing count code points, as in Python.
    - A Python [int] is a [Z].
    - A Python [dict] is an association list in insertion order whose keys
      are pairwise distinct ([dict_wf]).
    - Code that writes to a sink and may raise runs in the monad [io]: the
      chunks passed to [sio.write], in order, and how the code ended. *)

From Stdlib Require Import List ZArith NArith Bool Lia String Ascii.
From Stdlib Require Import DecimalString Sorted.
Import ListNotations.

Set Implicit Arguments.

(* ================================================================= *)
(** ** Python strings *)

Module PyStr.

Definition char := N.
Definition str := list char.

(** A literal whose characters are all ASCII. *)
Definition lit (s : string) : str :=
  map N_of_ascii (list_ascii_of_string s).

Fixpoint eqb (a b : str) : bool :=
  match a, b with
  | [], [] => true
  | x :: a', y :: b' => N.eqb x y && eqb a' b'
  | _, _ => false
  end.

(** [bool(s)]: a string is truthy when it is not empty. *)
Definition truthy (s : str) : bool :=
  match s with [] => false | _ :: _ => true end.

(** [len(s)] *)
Definition len {A} (l : list A) : Z := Z.of_nat (List.length l).

(** [s.startswith(p)] *)
Fixpoint startswith (p s : str) : bool :=
  match p, s with
  | [], _ => true
  | _ :: _, [] => false
  | x :: p', y :: s' => N.eqb x y && startswith p' s'
  end.

(** [p in s]: [p] occurs in [s] as a contiguous run of code points. *)
Fixpoint contains (p s : str) : bool :=
  startswith p s ||
  match s with
  | [] => false
  | _ :: s' => contains p s'
  end.

(** [s.split(sep)] for a one-character separator: never an empty list,
    [''.split(',') == ['']]. *)
Fixpoint split (sep : char) (s : str) : list str :=
  match s with
  | [] => [[]]
  | c :: s' =>
      if N.eqb c sep then [] :: split sep s'
      else match split sep s' with
           | [] => [[c]]
           | w :: ws => (c :: w) :: ws
           end
  end.

(** [sep.join(parts)] *)
Fixpoint join (sep : str) (parts : list str) : str :=
  match parts with
  | [] => []
  | [w] => w
  | w :: ws => w ++ sep ++ join sep ws
  end.

(** The code points [str.isspace] accepts, which are the ones [str.strip()]
    removes. *)
Definition isspace (c : char) : bool :=
  ((9 <=? c) && (c <=? 13) || (28 <=? c) && (c <=? 32) ||
   (c =? 133) || (c =? 160) || (c =? 5760) ||
   (8192 <=? c) && (c <=? 8202) || (c =? 8232) || (c =? 8233) ||
   (c =? 8239) || (c =? 8287) || (c =? 12288))%N.

Fixpoint lstrip (s : str) : str :=
  match s with
  | [] => []
  | c :: s' => if isspace c then lstrip s' else s
  end.

Definition rstrip (s : str) : str := rev (lstrip (rev s)).

(** [s.strip()] *)
Definition strip (s : str) : str := rstrip (lstrip s).

(** Lowercase form of one code point.  The case table is written out for
    Basic Latin and Latin-1 Supplement and for the two code points outside
    these blocks whose lowercase form contains an ASCII letter (U+0130 and
    U+212A); every other code point is left as it is. *)
Definition lower_char (c : char) : str :=
  (if (65 <=? c) && (c <=? 90) then [c + 32]
   else if (192 <=? c) && (c <=? 222) && negb (c =? 215) then [c + 32]
   else if c =? 304 then [105; 775]
   else if c =? 8490 then [107]
   else [c])%N.

(** [s.lower()] *)
Definition lower (s : str) : str := flat_map lower_char s.

(** [l[:stop]], negative [stop] counting from the end. *)
Definition slice_to {A} (l : list A) (stop : Z) : list A :=
  let stop' := if (stop <? 0)%Z then Z.max (stop + len l) 0
               else Z.min stop (len l) in
  firstn (Z.to_nat stop') l.

(** [l[start:]], negative [start] counting from the end. *)
Definition slice_from {A} (l : list A) (start : Z) : list A :=
  let start' := if (start <? 0)%Z then Z.max (start + len l) 0
                else Z.min start (len l) in
  skipn (Z.to_nat start') l.

(** [str(n)] for an [int]. *)
Definition str_of_int (n : Z) : str :=
  lit (NilZero.string_of_int (Z.to_int n)).

End PyStr.

Import PyStr.

(* ================================================================= *)
(** ** Exceptions, outcomes and the sink monad *)

(** The exceptions the modelled code can meet, by what an [except] clause
    can tell apart. *)
Inductive exn :=
| ValueError                (* ValueError, a subclass of Exception *)
| Error (name : str)        (* any other subclass of Exception *)
| BaseOnly (name : str).    (* KeyboardInterrupt, SystemExit, ...:
                               BaseException outside Exception *)

(** [isinstance(e, Exception)] *)
Definition is_Exception (e : exn) : bool :=
  match e with
  | ValueError | Error _ => true
  | BaseOnly _ => false
  end.

(** [isinstance(e, ValueError)] *)
Definition is_ValueError (e : exn) : bool :=
  match e with
  | ValueError => true
  | _ => false
  end.

Inductive outcome (A : Type) :=
| Done (a : A)
| Raised (e : exn).

Arguments Done {A} a.
Arguments Raised {A} e.

(** A computation with a sink: what it wrote, and how it ended. *)
Definition io (A : Type) : Type := (list str * outcome A)%type.

Definition ret {A} (a : A) : io A := ([], Done a).

Definition bind {A B} (m : io A) (k : A -> io B) : io B :=
  match m with
  | (w, Done a) => let (w', r) := k a in (w ++ w', r)
  | (w, Raised e) => (w, Raised e)
  end.

(** [sio.write(s)] *)
Definition write (s : str) : io unit := ([s], Done tt).

(** An expression that only returns or raises. *)
Definition lift {A} (r : outcome A) : io A := ([], r).

(** [try: body  except <catches>: handler] *)
Definition try_except {A} (body : io A) (catches : exn -> bool)
    (handler : io A) : io A :=
  match body with
  | (w, Done a) => (w, Done a)
  | (w, Raised e) =>
      if catches e then let (w', r) := handler in (w ++ w', r)
      else (w, Raised e)
  end.

Declare Scope io_scope.
Delimit Scope io_scope with io.
Notation "x <- m ;; k" := (bind m (fun x => k))
  (at level 61, m at next level, right associativity) : io_scope.
Notation "m ;; k" := (bind m (fun _ => k))
  (at level 61, right associativity) : io_scope.
Open Scope io_scope.

(** [for x in l: body(x)] *)
Fixpoint for_each {A} (l : list A) (body : A -> io unit) : io unit :=
  match l with
  | [] => ret tt
  | x :: l' => body x ;; for_each l' body
  end.

Definition written {A} (m : io A) : list str := fst m.
Definition result {A} (m : io A) : outcome A := snd m.

(* ================================================================= *)
(** ** Python dictionaries with string keys *)

Module PyDict.

Definition dict (V : Type) : Type := list (str * V).

(** The keys of a dictionary are pairwise distinct. *)
Definition dict_wf {V} (d : dict V) : Prop := NoDup (map fst d).

(** [d.get(k)] *)
Fixpoint dict_get {V} (k : str) (d : dict V) : option V :=
  match d with
  | [] => None
  | (k', v) :: d' => if PyStr.eqb k' k then Some v else dict_get k d'
  end.

(** [k in d] *)
Definition dict_contains {V} (k : str) (d : dict V) : bool :=
  match dict_get k d with Some _ => true | None => false end.

(** [d[k] = v]: an existing key keeps its place, a new key goes last. *)
Fixpoint dict_set {V} (k : str) (v : V) (d : dict V) : dict V :=
  match d with
  | [] => [(k, v)]
  | (k', v') :: d' =>
      if PyStr.eqb k' k then (k', v) :: d' else (k', v') :: dict_set k v d'
  end.

(** [not d], for a dictionary or a list: it is empty. *)
Definition is_empty {A} (l : list A) : bool :=
  match l with [] => true | _ :: _ => false end.

(** [d.items()] *)
Definition items {V} (d : dict V) : list (str * V) := d.

(** [{k: v for k, v in src if cond(k, v)}] *)
Definition dict_comprehension {V} (cond : str -> V -> bool)
    (src : list (str * V)) : dict V :=
  fold_left (fun acc kv => if cond (fst kv) (snd kv)
                           then dict_set (fst kv) (snd kv) acc else acc)
            src [].

(** [os.getenv(name, default)] on the process environment. *)
Definition getenv (environ : dict str) (name default : str) : str :=
  match dict_get name environ with
  | Some v => v
  | None => default
  end.

End PyDict.

Import PyDict.

(* ================================================================= *)
(** ** Runtime objects: values, frames, tracebacks *)

(** A Python object as the formatter and its delegate meet it: what
    [callable()] answers, what [repr()] does, and its truth value. *)
Record object := {
  obj_callable : bool;
  obj_repr : outcome str;
  obj_truthy : bool
}.

(** [callable(v)] *)
Definition callable (v : object) : bool := obj_callable v.

(** [repr(v)] *)
Definition repr (v : object) : io str := lift (obj_repr v).

Record code := {
  co_filename : str;
  co_name : str
}.

Record frame := {
  f_code : code;
  f_locals : dict object
}.

(** A traceback chain: [TbNone] is [None], a node links to [tb_next]. *)
Inductive traceback :=
| TbNone
| TbNode (tb_frame : frame) (tb_lineno : Z) (tb_next : traceback).

(* ================================================================= *)
(** ** focused_traceback.py *)

Module FocusedTraceback.

Definition DEFAULT_USER_CODE_PATHS : list str :=
  [lit "dcc_backend_common"; lit "src/"; lit "app/"; lit "tests/"].

Definition comma : char := 44%N.
Definition slash : char := 47%N.

Definition _get_user_code_paths (environ : dict str) : list str :=
  let env_paths := getenv environ (lit "LOGGER_USER_CODE_PATHS") [] in
  if truthy env_paths then
    let custom_paths :=
      map strip (filter (fun p => truthy (strip p)) (split comma env_paths)) in
    DEFAULT_USER_CODE_PATHS ++ custom_paths
  else DEFAULT_USER_CODE_PATHS.

Definition _is_user_code_frame (environ : dict str) (filename : str) : bool :=
  let user_paths := _get_user_code_paths environ in
  existsb (fun path => contains path filename) user_paths.

Record FocusedTracebackFormatter := {
  width : Z;
  max_frames : Z;
  locals_max_string : Z
}.

(** [FocusedTracebackFormatter()] with the defaults of [__init__]. *)
Definition default_formatter : FocusedTracebackFormatter :=
  {| width := 100; max_frames := 50; locals_max_string := 80 |}.

(** The entries appended to [user_frames]. *)
Record frame_info := {
  fi_filename : str;
  fi_lineno : Z;
  fi_name : str;
  fi_locals : dict object
}.

(** The [while current_tb is not None] loop. *)
Fixpoint collect_user_frames (environ : dict str) (current_tb : traceback)
    : list frame_info :=
  match current_tb with
  | TbNone => []
  | TbNode frame lineno tb_next =>
      let filename := co_filename (f_code frame) in
      if _is_user_code_frame environ filename then
        {| fi_filename := filename;
           fi_lineno := lineno;
           fi_name := co_name (f_code frame);
           fi_locals := f_locals frame (* .copy() *) |}
        :: collect_user_frames environ tb_next
      else collect_user_frames environ tb_next
  end.

Definition ESC : char := 27%N.
Definition CYAN_BOLD : str := ESC :: lit "[1;36m".
Definition YELLOW_BOLD : str := ESC :: lit "[1;33m".
Definition GREEN : str := ESC :: lit "[32m".
Definition RESET : str := ESC :: lit "[0m".
Definition NL : str := [10%N].
Definition HEAVY_BAR : char := 9473%N.      (* U+2501 *)
Definition POINTER : char := 9658%N.        (* U+25BA *)

Definition section_header : str :=
  NL ++ CYAN_BOLD ++ [HEAVY_BAR; HEAVY_BAR; HEAVY_BAR]
     ++ lit " Local variables in your code "
     ++ [HEAVY_BAR; HEAVY_BAR; HEAVY_BAR] ++ RESET ++ NL.

Definition frame_header (frame_info : frame_info) : str :=
  let short_filename :=
    slice_from (split slash (fi_filename frame_info)) (-3) in
  let short_path := join [slash] short_filename in
  NL ++ YELLOW_BOLD ++ [POINTER] ++ lit " " ++ short_path ++ lit ":"
     ++ str_of_int (fi_lineno frame_info) ++ lit " in "
     ++ fi_name frame_info ++ lit "()" ++ RESET ++ NL.

Definition no_local_variables : str := lit "  (no local variables)" ++ NL.
Definition no_relevant_local_variables : str :=
  lit "  (no relevant local variables)" ++ NL.

Definition ellipsis : str := lit "...".

(** The condition of the [filtered_locals] comprehension. *)
Definition keep_local (k : str) (v : object) : bool :=
  negb (startswith (lit "_") k)
  && negb (existsb (PyStr.eqb k) [lit "self"; lit "cls"])
  && negb (callable v).

Definition filtered_locals (locals_dict : dict object) : dict object :=
  dict_comprehension keep_local (items locals_dict).

(** The text after [=] when [repr] succeeds. *)
Definition bounded_repr (self : FocusedTracebackFormatter) (repr_value : str)
    : str :=
  if (len repr_value >? locals_max_string self)%Z
  then slice_to repr_value (locals_max_string self) ++ ellipsis
  else repr_value.

Definition local_line (name text : str) : str :=
  lit "  " ++ GREEN ++ name ++ RESET ++ lit " = " ++ text ++ NL.

Definition repr_failed : str := lit "<repr failed>".

(** The body of [for name, value in filtered_locals.items()]. *)
Definition print_local (self : FocusedTracebackFormatter)
    (binding : str * object) : io unit :=
  let (name, value) := binding in
  try_except
    (repr_value <- repr value ;;
     let repr_value := bounded_repr self repr_value in
     write (local_line name repr_value))
    is_Exception
    (write (local_line name repr_failed)).

(** The body of [for frame_info in user_frames]. *)
Definition print_frame (self : FocusedTracebackFormatter)
    (frame_info : frame_info) : io unit :=
  write (frame_header frame_info) ;;
  let locals_dict := fi_locals frame_info in
  if is_empty locals_dict then
    write no_local_variables
  else
    let filtered_locals := filtered_locals locals_dict in
    if is_empty filtered_locals then
      write no_relevant_local_variables
    else
      for_each (items filtered_locals) (print_local self).

Definition _print_user_code_locals (self : FocusedTracebackFormatter)
    (environ : dict str) (tb : traceback) : io unit :=
  let user_frames := collect_user_frames environ tb in
  if is_empty user_frames then
    ret tt
  else
    write section_header ;;
    for_each user_frames (print_frame self).

Section Delegate.

(** The exception type and value are only handed to the delegate. *)
Variables ExcType ExcValue : Type.

(** What [console.print(Traceback.from_exception(exc_type, exc_value,
    exc_tb, width, max_frames, show_locals=False))] leaves in
    [temp_buffer], or the exception it ends with. *)
Variable rich_traceback :
  ExcType -> ExcValue -> traceback -> Z -> Z -> outcome str.

Definition __call__ (self : FocusedTracebackFormatter) (environ : dict str)
    (exc_info : ExcType * ExcValue * traceback) : io unit :=
  let '(exc_type, exc_value, exc_tb) := exc_info in
  text <- lift (rich_traceback exc_type exc_value exc_tb
                  (width self) (max_frames self)) ;;
  write text ;;
  _print_user_code_locals self environ exc_tb.

End Delegate.

(** *** The frames each half of the output shows *)

(** Every node of the chain, as the record the walker would make of it. *)
Fixpoint all_frames (tb : traceback) : list frame_info :=
  match tb with
  | TbNone => []
  | TbNode frame lineno tb_next =>
      {| fi_filename := co_filename (f_code frame);
         fi_lineno := lineno;
         fi_name := co_name (f_code frame);
         fi_locals := f_locals frame |} :: all_frames tb_next
  end.

Fixpoint enumerate_from {A} (i : Z) (l : list A) : list (Z * A) :=
  match l with
  | [] => []
  | x :: l' => (i, x) :: enumerate_from (i + 1) l'
  end.

(** A frame is told from the others by its place in the chain. *)
Definition numbered_frames (tb : traceback) : list (Z * frame_info) :=
  enumerate_from 0 (all_frames tb).

(** Modelled from the spec: the delegate renderer of section 4.4 of the
    design, [rich.traceback.Traceback], which is not part of this package.
    The design says that it renders the base trace under the [max_frames]
    limit; which frames of the chain that leaves in the trace is written
    here as the library decides it.

    [Traceback.extract] walks the chain: a frame whose locals hold a true
    [_rich_traceback_omit] is skipped; every other frame is appended to the
    stack; and after a frame whose locals hold a true
    [_rich_traceback_guard] the stack is emptied, that frame included. *)
Definition rich_marker (name : str) (fi : frame_info) : bool :=
  match dict_get name (fi_locals fi) with
  | Some v => obj_truthy v
  | None => false
  end.

Definition rich_omit : frame_info -> bool :=
  rich_marker (lit "_rich_traceback_omit").

Definition rich_guard : frame_info -> bool :=
  rich_marker (lit "_rich_traceback_guard").

Definition rich_extract_step (stack : list (Z * frame_info))
    (ix : Z * frame_info) : list (Z * frame_info) :=
  if rich_omit (snd ix) then stack
  else if rich_guard (snd ix) then []
  else stack ++ [ix].

Definition rich_extract (frames : list (Z * frame_info))
    : list (Z * frame_info) :=
  fold_left rich_extract_step frames [].

(** Modelled from the spec: the frame limit of the same delegate.
    [Traceback.__init__] keeps [max(4, max_frames)] when the argument is
    positive and no limit otherwise; with a limit [m], [_render_stack]
    leaves out the frames of the stack whose index lies in
    [range(m // 2, len(frames) - m // 2)] and prints one "frames hidden"
    line in their place. *)
Definition rich_frame_limit (max_frames : Z) : Z :=
  if (0 <? max_frames)%Z then Z.max 4 max_frames else 0%Z.

Definition rich_shown_frames {A} (max_frames : Z) (frames : list A) : list A :=
  let m := rich_frame_limit max_frames in
  if (m =? 0)%Z then frames
  else
    let lo := (m / 2)%Z in
    let hi := (len frames - m / 2)%Z in
    map snd (filter (fun ix => negb ((lo <=? fst ix)%Z && (fst ix <? hi)%Z))
                    (enumerate_from 0 frames)).

(** Modelled from the spec: the frames of the chain that the base trace of
    the delegate shows, extracted and then limited. *)
Definition base_trace_frames (self : FocusedTracebackFormatter)
    (tb : traceback) : list (Z * frame_info) :=
  rich_shown_frames (max_frames self) (rich_extract (numbered_frames tb)).

(** No frame of the chain carries one of the delegate's markers. *)
Definition unmarked (tb : traceback) : Prop :=
  Forall (fun fi => rich_omit fi = false /\ rich_guard fi = false)
         (all_frames tb).

(** The frames the focused section shows locals for: the entries of
    [user_frames], each with its place in the chain. *)
Definition frames_with_locals (environ : dict str) (tb : traceback)
    : list (Z * frame_info) :=
  filter (fun ix => _is_user_code_frame environ (fi_filename (snd ix)))
         (numbered_frames tb).

(** *** What a rendering that runs to its end consists of *)

(** The text shown for a value: its bounded representation, or the
    placeholder when [repr] raised. *)
Definition shown_text (self : FocusedTracebackFormatter) (v : object) : str :=
  match obj_repr v with
  | Done repr_value => bounded_repr self repr_value
  | Raised _ => repr_failed
  end.

Definition local_lines (self : FocusedTracebackFormatter)
    (bindings : list (str * object)) : list str :=
  map (fun kv => local_line (fst kv) (shown_text self (snd kv))) bindings.

Definition frame_lines (self : FocusedTracebackFormatter) (fi : frame_info)
    : list str :=
  frame_header fi ::
  (if is_empty (fi_locals fi) then [no_local_variables]
   else if is_empty (filtered_locals (fi_locals fi))
        then [no_relevant_local_variables]
        else local_lines self (filtered_locals (fi_locals fi))).

Definition focused_section (self : FocusedTracebackFormatter)
    (user_frames : list frame_info) : list str :=
  if is_empty user_frames then []
  else section_header :: List.concat (map (frame_lines self) user_frames).

(** [repr(v)] returns, or raises an error an [except Exception] catches. *)
Definition repr_errs_only (v : object) : bool :=
  match obj_repr v with
  | Done _ => true
  | Raised e => is_Exception e
  end.

(** No local that survives the filter, in any user-code frame of the chain,
    has a [repr] that ends with something other than an [Exception]. *)
Definition reprs_err_only (user_frames : list frame_info) : Prop :=
  Forall (fun fi => Forall (fun kv => repr_errs_only (snd kv) = true)
                           (filtered_locals (fi_locals fi)))
         user_frames.

(** *** The filter in the words of the design *)

(** A binding is dropped when its name begins with an underscore, is one of
    the two self-reference names, or is bound to a callable. *)
Definition dropped (k : str) (v : object) : Prop :=
  (exists rest, k = lit "_" ++ rest)
  \/ k = lit "self" \/ k = lit "cls"
  \/ callable v = true.

(** *** The pattern set in the words of the design *)

(** [p] occurs in [s] as a literal run of characters. *)
Definition is_substring (p s : str) : Prop :=
  exists pre post, s = pre ++ p ++ post.

(** The value of the override, empty when the variable is not set. *)
Definition override_value (environ : dict str) : str :=
  match dict_get (lit "LOGGER_USER_CODE_PATHS") environ with
  | Some v => v
  | None => []
  end.

(** The four defaults, extended by the comma-separated entries of the
    override, each trimmed, the ones empty after trimming dropped. *)
Definition active_pattern (environ : dict str) (p : str) : Prop :=
  In p [lit "dcc_backend_common"; lit "src/"; lit "app/"; lit "tests/"]
  \/ (exists entry, In entry (split comma (override_value environ))
                    /\ p = strip entry /\ p <> []).

(** *** The compact path of a frame header *)

(** [short_path] in [_print_user_code_locals]: the last three segments of
    the file name. *)
Definition short_path (filename : str) : str :=
  join [slash] (slice_from (split slash filename) (-3)).

(** The number of times a character occurs in a string. *)
Definition occurrences (c : char) (s : str) : nat :=
  List.length (filter (N.eqb c) s).

(** What every pattern of the active set looks like. *)
Definition well_formed_pattern (p : str) : Prop :=
  p <> []
  /\ ~ In comma p
  /\ match p with [] => True | c :: _ => isspace c = false end
  /\ match rev p with [] => True | c :: _ => isspace c = false end.

End FocusedTraceback.

(* ================================================================= *)
(** ** logger.py *)

Module Logger.

Inductive DevTracebackStyle := FOCUSED | RICH.

(** The value of each member of the [StrEnum]. *)
Definition style_value (s : DevTracebackStyle) : str :=
  match s with
  | FOCUSED => lit "focused"
  | RICH => lit "rich"
  end.

(** [DevTracebackStyle(value)]: look a member up by value. *)
Definition DevTracebackStyle_of (value : str) : outcome DevTracebackStyle :=
  if PyStr.eqb value (style_value FOCUSED) then Done FOCUSED
  else if PyStr.eqb value (style_value RICH) then Done RICH
  else Raised ValueError.

Definition _get_dev_traceback_style (environ : dict str)
    : io DevTracebackStyle :=
  let style := lower (getenv environ (lit "DEV_TRACEBACK_STYLE")
                                     (lit "focused")) in
  try_except (lift (DevTracebackStyle_of style))
             is_ValueError
             (ret FOCUSED).

Definition lowercase_letter (c : char) : Prop := (97 <= c <= 122)%N.

(** [value] spells the lowercase ASCII word [word], each letter in either
    case. *)
Fixpoint is_casing_of (word value : str) : bool :=
  match word, value with
  | [], [] => true
  | c :: word', d :: value' =>
      (N.eqb d c || N.eqb d (c - 32)) && is_casing_of word' value'
  | _, _ => false
  end.

(** The value names a style, in any casing. *)
Definition recognized (value : str) : Prop :=
  exists s, is_casing_of (style_value s) value = true.

(** The [exception_formatter] handed to [structlog.dev.ConsoleRenderer]. *)
Inductive exception_formatter :=
| RichTracebackFormatter (width max_frames : Z) (show_locals : bool)
| Focused (formatter : FocusedTraceback.FocusedTracebackFormatter).

Definition _get_dev_console_renderer (environ : dict str)
    : io exception_formatter :=
  style <- _get_dev_traceback_style environ ;;
  match style with
  | RICH => ret (RichTracebackFormatter 120 30 true)
  | FOCUSED =>
      ret (Focused {| FocusedTraceback.width := 120;
                      FocusedTraceback.max_frames := 30;
                      FocusedTraceback.locals_max_string := 120 |})
  end.

(** A value in an event dictionary: a [str], or any other object. *)
Inductive field :=
| FStr (s : str)
| FObj (o : object).

(** [add_request_id(logger, method_name, event_dict)]; [uuid4] is the text
    [str(uuid.uuid4())] evaluates to in this call. *)
Definition add_request_id {L : Type} (logger : L) (method_name : str)
    (uuid4 : str) (event_dict : dict field) : dict field :=
  if negb (dict_contains (lit "request_id") event_dict)
  then dict_set (lit "request_id") (FStr uuid4) event_dict
  else event_dict.

(** [add_timestamp(logger, method_name, event_dict)]; [strftime] is the text
    [time.strftime("%Y-%m-%dT%H:%M:%S%z")] evaluates to in this call. *)
Definition add_timestamp {L : Type} (logger : L) (method_name : str)
    (strftime : str) (event_dict : dict field) : dict field :=
  dict_set (lit "timestamp") (FStr strftime) event_dict.

Inductive CallsiteParameter := MODULE | FUNC_NAME | LINENO.

(** The entries of the [processors] list of [init_logger]. *)
Inductive processor :=
| filter_by_level
| add_log_level
| StackInfoRenderer
| AddTimestamp                       (* [add_timestamp] *)
| AddRequestId                       (* [add_request_id] *)
| CallsiteParameterAdder (parameters : list CallsiteParameter)
| UnicodeDecoder
| JSONRenderer
| ConsoleRenderer (exception_formatter : exception_formatter).

(** The [processors] list [init_logger] hands to [structlog.configure];
    [is_prod] is how [get_env_or_throw("IS_PROD")], a function of the
    package's [config] module, ended. *)
Definition init_logger_processors (is_prod : outcome str)
    (environ : dict str) : io (list processor) :=
  let processors :=
    [filter_by_level; add_log_level; StackInfoRenderer;
     AddTimestamp; AddRequestId;
     CallsiteParameterAdder [MODULE; FUNC_NAME; LINENO];
     UnicodeDecoder] in
  value <- lift is_prod ;;
  if PyStr.eqb (lower value) (lit "true") then
    ret (processors ++ [JSONRenderer])
  else
    renderer <- _get_dev_console_renderer environ ;;
    ret (processors ++ [ConsoleRenderer renderer]).

(** DEV_TRACEBACK_STYLE is set to "rich" in some casing. *)
Definition asks_for_rich (environ : dict str) : Prop :=
  exists value, dict_get (lit "DEV_TRACEBACK_STYLE") environ = Some value
                /\ is_casing_of (lit "rich") value = true.

(** The seven processors [init_logger] lists before the renderer. *)
Definition base_processors : list processor :=
  [filter_by_level; add_log_level; StackInfoRenderer;
   AddTimestamp; AddRequestId;
   CallsiteParameterAdder [MODULE; FUNC_NAME; LINENO];
   UnicodeDecoder].

End Logger.

(* ================================================================= *)
(** ** demo_logger_traceback.py *)

Module Demo.

Import Logger.

(** [os.environ] after the assignments at the head of the script, run with
    the command line [argv] in the environment [environ]. *)
Definition demo_environ (argv : list str) (environ : dict str) : dict str :=
  let environ := dict_set (lit "IS_PROD") (lit "false") environ in
  let environ :=
    dict_set (lit "LOGGER_USER_CODE_PATHS") (lit "backend-common") environ in
  if (len argv >? 1)%Z && PyStr.eqb (lower (nth 1 argv [])) (lit "rich")
  then dict_set (lit "DEV_TRACEBACK_STYLE") (lit "rich") environ
  else dict_set (lit "DEV_TRACEBACK_STYLE") (lit "focused") environ.

End Demo.

(* ================================================================= *)
(** ** Sample inputs *)

Module Samples.

Import FocusedTraceback Logger.

(** A value that is not callable and whose [repr] is [text]. *)
Definition showing (text : string) : object :=
  {| obj_callable := false; obj_repr := Done (lit text);
     obj_truthy := true |}.

(** A function object. *)
Definition a_function : object :=
  {| obj_callable := true; obj_repr := Done (lit "<function helper>");
     obj_truthy := true |}.

(** A value whose [__repr__] raises a [RuntimeError]. *)
Definition hostile : object :=
  {| obj_callable := false; obj_repr := Raised (Error (lit "RuntimeError"));
     obj_truthy := true |}.

Definition frame_of (filename name : string) (locals : dict object) : frame :=
  {| f_code := {| co_filename := lit filename; co_name := lit name |};
     f_locals := locals |}.

Definition demo_locals : dict object :=
  [(lit "user_id", showing "42");
   (lit "_tmp", showing "0");
   (lit "self", showing "<Service>");
   (lit "helper", a_function);
   (lit "data", hostile)].

Definition demo_frame_info : frame_info :=
  {| fi_filename := lit "/srv/app/service.py"; fi_lineno := 17;
     fi_name := lit "handle"; fi_locals := demo_locals |}.

(** A user-code frame that called into the standard library. *)
Definition demo_traceback : traceback :=
  TbNode (frame_of "/srv/app/service.py" "handle" demo_locals) 17
    (TbNode (frame_of "/usr/lib/python3/json/encoder.py" "default"
                      [(lit "o", showing "<object>")]) 180
       TbNone).

(** A chain with library frames only. *)
Definition library_traceback : traceback :=
  TbNode (frame_of "/usr/lib/python3/json/__init__.py" "dumps"
                   [(lit "obj", showing "{}")]) 231
    (TbNode (frame_of "/usr/lib/python3/json/encoder.py" "default" []) 180
       TbNone).



(** [depth] nested calls of one function of the application. *)
Fixpoint recursion_chain (depth : nat) : traceback :=
  match depth with
  | O => TbNone
  | S depth' =>
      TbNode (frame_of "/srv/app/walk.py" "descend" []) 12
             (recursion_chain depth')
  end.

(** The formatter [_get_dev_console_renderer] installs by default. *)
Definition dev_formatter : FocusedTracebackFormatter :=
  {| width := 120; max_frames := 30; locals_max_string := 120 |}.

(** A value whose [__repr__] raises a [KeyboardInterrupt]. *)
Definition interrupting : object :=
  {| obj_callable := false;
     obj_repr := Raised (BaseOnly (lit "KeyboardInterrupt"));
     obj_truthy := true |}.

(** Locals of which the second one interrupts its [repr]. *)
Definition interrupted_locals : dict object :=
  [(lit "n", showing "3");
   (lit "job", interrupting);
   (lit "rest", showing "[]")].

(** Two user-code frames, the inner one marked for the delegate. *)
Definition omitting_traceback : traceback :=
  TbNode (frame_of "/srv/app/service.py" "handle" [(lit "n", showing "3")]) 17
    (TbNode (frame_of "/srv/app/retry.py" "wrapper"
                      [(lit "_rich_traceback_omit", showing "True")]) 5
       TbNone).

(** A value whose [repr] is 81 characters long. *)
Definition long_value : object :=
  {| obj_callable := false; obj_repr := Done (repeat 120%N 81);
     obj_truthy := true |}.

Definition sample_event : dict field :=
  [(lit "event", FStr (lit "started")); (lit "level", FStr (lit "info"))].

End Samples.

(* ================================================================= *)
(** * Properties *)

Import FocusedTraceback Logger Samples Demo.

(** ** Strings *)

Section StrFacts.

Lemma eqb_eq (a b : str) : PyStr.eqb a b = true <-> a = b.
Proof.
  revert b; induction a as [|x a IH]; intros [|y b]; simpl;
    try (split; [discriminate | intros H; inversion H]); try tauto.
  rewrite andb_true_iff, N.eqb_eq, IH.
  split; [intros [-> ->]; reflexivity | intros H; inversion H; auto].
Qed.

Lemma eqb_refl (a : str) : PyStr.eqb a a = true.
Proof. apply eqb_eq; reflexivity. Qed.

Lemma eqb_neq (a b : str) : PyStr.eqb a b = false <-> a <> b.
Proof.
  rewrite <- eqb_eq. destruct (PyStr.eqb a b); split; congruence.
Qed.

Lemma truthy_nonempty (s : str) : truthy s = true <-> s <> [].
Proof. destruct s; simpl; split; congruence. Qed.

Lemma startswith_prefix (p s : str) :
  startswith p s = true <-> exists post, s = p ++ post.
Proof.
  revert s; induction p as [|x p IH]; intros s; simpl.
  - split; [intros _; exists s; reflexivity | reflexivity].
  - destruct s as [|y s].
    + split; [discriminate | intros [post H]; discriminate].
    + rewrite andb_true_iff, N.eqb_eq, IH. split.
      * intros [-> [post ->]]. exists post; reflexivity.
      * intros [post H]. inversion H; subst. split; [reflexivity | eauto].
Qed.

(** The operator [in] on strings finds exactly the literal occurrences. *)
Lemma contains_substring (p s : str) :
  contains p s = true <-> is_substring p s.
Proof.
  unfold is_substring. induction s as [|c s IH].
  - simpl. rewrite orb_false_r, startswith_prefix. split.
    + intros [post H]. exists [], post. exact H.
    + intros [pre [post H]]. destruct pre; [eauto | discriminate].
  - cbn [contains]. rewrite orb_true_iff, startswith_prefix, IH. split.
    + intros [[post H] | [pre [post H]]].
      * exists [], post. exact H.
      * exists (c :: pre), post. rewrite H. reflexivity.
    + intros [[|c' pre] [post H]].
      * left. exists post. exact H.
      * right. inversion H; subst. eauto.
Qed.

Lemma split_nonempty (sep : char) (s : str) : split sep s <> [].
Proof.
  induction s as [|c s IH]; simpl; [discriminate|].
  destruct (N.eqb c sep); [discriminate|].
  destruct (split sep s); discriminate.
Qed.

(** [split] cuts at every separator and nowhere else: joining the pieces
    gives the string back, and no piece holds a separator. *)
Lemma join_split (sep : char) (s : str) : join [sep] (split sep s) = s.
Proof.
  induction s as [|c s IH]; simpl; [reflexivity|].
  destruct (N.eqb c sep) eqn:E.
  - apply N.eqb_eq in E; subst c.
    pose proof (split_nonempty sep s) as Hne.
    destruct (split sep s) as [|w ws]; [congruence|].
    rewrite <- IH. reflexivity.
  - pose proof (split_nonempty sep s) as Hne.
    destruct (split sep s) as [|w ws]; [congruence|].
    destruct ws as [|w' ws]; rewrite <- IH; reflexivity.
Qed.

Lemma split_pieces_free (sep : char) (s : str) :
  Forall (fun w => ~ In sep w) (split sep s).
Proof.
  induction s as [|c s IH]; simpl.
  - constructor; [intros [] | constructor].
  - destruct (N.eqb c sep) eqn:E.
    + constructor; [intros [] | exact IH].
    + destruct (split sep s) as [|w ws].
      * constructor; [|constructor].
        intros [H | []]. subst. rewrite N.eqb_refl in E. discriminate.
      * inversion IH; subst. constructor; [|assumption].
        intros [H | H]; [|contradiction].
        subst. rewrite N.eqb_refl in E. discriminate.
Qed.

Lemma lstrip_decompose (s : str) :
  exists ws, s = ws ++ lstrip s /\ forallb isspace ws = true.
Proof.
  induction s as [|c s [ws [H1 H2]]]; simpl.
  - exists []. split; reflexivity.
  - destruct (isspace c) eqn:E.
    + exists (c :: ws). simpl. rewrite E, H2.
      split; [f_equal; exact H1 | reflexivity].
    + exists []. split; reflexivity.
Qed.

Lemma lstrip_head (s : str) :
  match lstrip s with [] => True | c :: _ => isspace c = false end.
Proof.
  induction s as [|c s IH]; simpl; [exact I|].
  destruct (isspace c) eqn:E; [exact IH | exact E].
Qed.

(** [strip] removes a run of whitespace at each end and nothing else. *)
Lemma strip_decompose (s : str) :
  exists l r, s = l ++ strip s ++ r
              /\ forallb isspace l = true /\ forallb isspace r = true.
Proof.
  unfold strip, rstrip.
  destruct (lstrip_decompose s) as [l [Hl Hls]].
  destruct (lstrip_decompose (rev (lstrip s))) as [r [Hr Hrs]].
  exists l, (rev r). repeat split; try assumption.
  - rewrite Hl at 1. f_equal.
    rewrite <- rev_app_distr, <- Hr, rev_involutive. reflexivity.
  - rewrite forallb_forall in *. intros x Hx. apply Hrs, in_rev. exact Hx.
Qed.

Lemma strip_ends (s : str) :
  match strip s with [] => True | c :: _ => isspace c = false end
  /\ match rev (strip s) with [] => True | c :: _ => isspace c = false end.
Proof.
  split.
  - unfold strip, rstrip.
    pose proof (lstrip_head s) as Hh.
    destruct (lstrip_decompose (rev (lstrip s))) as [ws [Hws _]].
    apply (f_equal (@rev char)) in Hws.
    rewrite rev_involutive, rev_app_distr in Hws.
    destruct (rev (lstrip (rev (lstrip s)))) as [|c r]; [exact I|].
    rewrite Hws in Hh. exact Hh.
  - unfold strip, rstrip. rewrite rev_involutive. apply lstrip_head.
Qed.

(** Two strings that agree up to and after the first occurrence of a
    character are cut by it at the same place. *)
Lemma cut_at_first (x : char) (a b r r' : str) :
  ~ In x a -> ~ In x b -> a ++ x :: r = b ++ x :: r' -> a = b /\ r = r'.
Proof.
  revert b. induction a as [|c a IH]; intros [|d b] Ha Hb H; simpl in *.
  - inversion H. auto.
  - inversion H; subst. exfalso. apply Hb. left. reflexivity.
  - inversion H; subst. exfalso. apply Ha. left. reflexivity.
  - inversion H; subst. destruct (IH b) as [-> ->]; auto.
Qed.

End StrFacts.

(** ** Dictionaries *)

Section DictFacts.

Variable V : Type.
Implicit Types (d : dict V) (k : str) (v : V).

Lemma dict_get_none k d : dict_get k d = None <-> ~ In k (map fst d).
Proof.
  induction d as [|[k' v'] d IH]; simpl.
  - tauto.
  - destruct (PyStr.eqb k' k) eqn:E.
    + apply eqb_eq in E. split; [discriminate | intros H; exfalso; auto].
    + apply eqb_neq in E. rewrite IH. tauto.
Qed.

Lemma dict_contains_in k d : dict_contains k d = true <-> In k (map fst d).
Proof.
  unfold dict_contains. pose proof (dict_get_none k d) as H.
  destruct (dict_get k d).
  - split; [intros _ | reflexivity].
    destruct (in_dec (list_eq_dec N.eq_dec) k (map fst d)) as [Hin | Hout];
      [exact Hin | apply H in Hout; discriminate].
  - split; [discriminate | intros Hin; exfalso; apply (proj1 H); auto].
Qed.

(** Assigning to a key the dictionary does not hold appends one item. *)
Lemma dict_set_absent k v d :
  ~ In k (map fst d) -> dict_set k v d = d ++ [(k, v)].
Proof.
  induction d as [|[k' v'] d IH]; simpl; intros H; [reflexivity|].
  destruct (PyStr.eqb k' k) eqn:E.
  - apply eqb_eq in E. exfalso; auto.
  - rewrite IH by tauto. reflexivity.
Qed.

Lemma dict_get_set_same k v d : dict_get k (dict_set k v d) = Some v.
Proof.
  induction d as [|[k' v'] d IH]; simpl.
  - rewrite eqb_refl. reflexivity.
  - destruct (PyStr.eqb k' k) eqn:E; simpl; rewrite E; [reflexivity | exact IH].
Qed.

Lemma dict_get_set_other k k' v d :
  k' <> k -> dict_get k' (dict_set k v d) = dict_get k' d.
Proof.
  intros Hne. induction d as [|[k0 v0] d IH]; simpl.
  - destruct (PyStr.eqb k k') eqn:E;
      [apply eqb_eq in E; congruence | reflexivity].
  - destruct (PyStr.eqb k0 k) eqn:E; simpl.
    + apply eqb_eq in E; subst k0.
      destruct (PyStr.eqb k k') eqn:E';
        [apply eqb_eq in E'; congruence | reflexivity].
    + rewrite IH. reflexivity.
Qed.

Variable cond : str -> V -> bool.

Let step (acc : dict V) (kv : str * V) : dict V :=
  if cond (fst kv) (snd kv) then dict_set (fst kv) (snd kv) acc else acc.

Lemma comprehension_from (src : list (str * V)) (acc : dict V) :
  NoDup (map fst src) ->
  (forall k, In k (map fst src) -> ~ In k (map fst acc)) ->
  fold_left step src acc
  = acc ++ filter (fun kv => cond (fst kv) (snd kv)) src.
Proof.
  revert acc. induction src as [|[k v] src IH]; intros acc Hnd Hdis; simpl.
  - rewrite app_nil_r. reflexivity.
  - inversion Hnd as [|? ? Hk Hnd']; subst.
    unfold step at 2. simpl.
    destruct (cond k v).
    + rewrite dict_set_absent by (apply Hdis; left; reflexivity).
      rewrite IH; [rewrite <- app_assoc; reflexivity | exact Hnd' |].
      intros k' Hin. rewrite map_app, in_app_iff. simpl.
      intros [Hacc | [-> | []]]; [|contradiction].
      apply (Hdis k'); [right; exact Hin | exact Hacc].
    + apply IH; [exact Hnd' |]. intros k' Hin. apply Hdis. right. exact Hin.
Qed.

(** A comprehension over the items of a dictionary keeps the items that
    pass the condition, in their order. *)
Lemma comprehension_filter d :
  dict_wf d ->
  dict_comprehension cond (items d)
  = filter (fun kv => cond (fst kv) (snd kv)) d.
Proof.
  intros Hwf. unfold dict_comprehension, items.
  apply (comprehension_from d [] Hwf). intros k _ [].
Qed.


End DictFacts.

(** ** The sink monad *)

Section IoFacts.

Lemma bind_write {B} (s : str) (k : unit -> io B) :
  bind (write s) k = (s :: written (k tt), result (k tt)).
Proof. unfold bind, write, written, result. destruct (k tt); reflexivity. Qed.

Lemma bind_done {A B} (w : list str) (a : A) (k : A -> io B) :
  bind (w, Done a) k = (w ++ written (k a), result (k a)).
Proof. unfold bind, written, result. destruct (k a); reflexivity. Qed.

Lemma bind_assoc {A B C} (m : io A) (k : A -> io B) (h : B -> io C) :
  bind (bind m k) h = bind m (fun a => bind (k a) h).
Proof.
  destruct m as [w [a | e]]; simpl; [|reflexivity].
  destruct (k a) as [w1 [b | e1]]; simpl; [|reflexivity].
  destruct (h b) as [w2 r]. rewrite app_assoc. reflexivity.
Qed.

Lemma bind_ret_l {B} (k : unit -> io B) : bind (ret tt) k = k tt.
Proof. unfold bind, ret. destruct (k tt). reflexivity. Qed.

Lemma for_each_app {A} (l1 l2 : list A) (body : A -> io unit) :
  for_each (l1 ++ l2) body = (for_each l1 body ;; for_each l2 body).
Proof.
  induction l1 as [|x l1 IH]; cbn [for_each app].
  - rewrite bind_ret_l. reflexivity.
  - rewrite IH, bind_assoc. reflexivity.
Qed.

(** A loop whose body writes and returns normally on every element writes
    the bodies' output in order and returns normally. *)
Lemma for_each_done {A} (l : list A) (body : A -> io unit)
    (out : A -> list str) :
  Forall (fun x => body x = (out x, Done tt)) l ->
  for_each l body = (List.concat (map out l), Done tt).
Proof.
  induction 1 as [|x l Hx _ IH]; simpl; [reflexivity|].
  rewrite Hx, IH. reflexivity.
Qed.

End IoFacts.

(** ** Rendering of one binding, one frame, the section *)

Section Rendering.

Variable self : FocusedTracebackFormatter.

Lemma print_local_returns (name : str) (value : object) (repr_value : str) :
  obj_repr value = Done repr_value ->
  print_local self (name, value)
  = ([local_line name (bounded_repr self repr_value)], Done tt).
Proof. intros H. unfold print_local, repr, lift. rewrite H. reflexivity. Qed.

Lemma print_local_caught (name : str) (value : object) (e : exn) :
  obj_repr value = Raised e -> is_Exception e = true ->
  print_local self (name, value) = ([local_line name repr_failed], Done tt).
Proof.
  intros H He. unfold print_local, repr, lift. rewrite H. simpl.
  rewrite He. reflexivity.
Qed.

Lemma print_local_escapes (name : str) (value : object) (e : exn) :
  obj_repr value = Raised e -> is_Exception e = false ->
  print_local self (name, value) = ([], Raised e).
Proof.
  intros H He. unfold print_local, repr, lift. rewrite H. simpl.
  rewrite He. reflexivity.
Qed.

Lemma print_local_line (binding : str * object) :
  repr_errs_only (snd binding) = true ->
  print_local self binding
  = ([local_line (fst binding) (shown_text self (snd binding))], Done tt).
Proof.
  destruct binding as [name value]. unfold repr_errs_only, shown_text.
  cbn [fst snd].
  destruct (obj_repr value) as [r | e] eqn:E; intros H.
  - apply print_local_returns. exact E.
  - apply print_local_caught with e; assumption.
Qed.

Lemma print_locals_lines (bindings : list (str * object)) :
  Forall (fun kv => repr_errs_only (snd kv) = true) bindings ->
  for_each bindings (print_local self)
  = (local_lines self bindings, Done tt).
Proof.
  intros H. unfold local_lines.
  rewrite for_each_done
    with (out := fun kv => [local_line (fst kv) (shown_text self (snd kv))]).
  - f_equal. induction bindings as [|b bs IH]; simpl; [reflexivity|].
    inversion H; subst. rewrite IH by assumption. reflexivity.
  - apply Forall_impl with (2 := H). intros kv. apply print_local_line.
Qed.

Lemma print_frame_lines (fi : frame_info) :
  Forall (fun kv => repr_errs_only (snd kv) = true)
         (filtered_locals (fi_locals fi)) ->
  print_frame self fi = (frame_lines self fi, Done tt).
Proof.
  intros H. unfold print_frame, frame_lines. rewrite bind_write.
  destruct (is_empty (fi_locals fi)); [reflexivity|].
  destruct (is_empty (filtered_locals (fi_locals fi))); [reflexivity|].
  unfold items. rewrite print_locals_lines by exact H. reflexivity.
Qed.

Lemma print_frame_header_first (fi : frame_info) :
  exists rest, written (print_frame self fi) = frame_header fi :: rest.
Proof. unfold print_frame. rewrite bind_write. simpl. eauto. Qed.

(** The section as a whole, when no [repr] ends outside [Exception]. *)
Lemma print_user_code_locals_lines (environ : dict str) (tb : traceback) :
  reprs_err_only (collect_user_frames environ tb) ->
  _print_user_code_locals self environ tb
  = (focused_section self (collect_user_frames environ tb), Done tt).
Proof.
  intros H. unfold _print_user_code_locals, focused_section.
  destruct (is_empty (collect_user_frames environ tb)); [reflexivity|].
  rewrite bind_write, for_each_done with (out := frame_lines self).
  - reflexivity.
  - apply Forall_impl with (2 := H). intros fi. apply print_frame_lines.
Qed.

End Rendering.

(** ** The walker *)

Lemma collect_user_frames_filter (environ : dict str) (tb : traceback) :
  collect_user_frames environ tb
  = filter (fun fi => _is_user_code_frame environ (fi_filename fi))
           (all_frames tb).
Proof.
  induction tb as [|frame lineno tb IH]; simpl; [reflexivity|].
  destruct (_is_user_code_frame environ (co_filename (f_code frame)));
    rewrite IH; reflexivity.
Qed.

(* ================================================================= *)
(** * The path classifier *)

Lemma user_code_paths_active (environ : dict str) (p : str) :
  In p (_get_user_code_paths environ) <-> active_pattern environ p.
Proof.
  assert (Hnone : In p DEFAULT_USER_CODE_PATHS <->
                  In p DEFAULT_USER_CODE_PATHS \/
                  (exists entry, In entry (split comma []) /\
                                 p = strip entry /\ p <> [])).
  { split; [auto|]. intros [H | [entry [[<- | []] [-> Hne]]]]; [exact H|].
    exfalso. apply Hne. reflexivity. }
  unfold _get_user_code_paths, active_pattern, getenv, override_value.
  destruct (dict_get (lit "LOGGER_USER_CODE_PATHS") environ) as [v|];
    [|exact Hnone].
  destruct v as [|c v]; [exact Hnone|].
  cbn [truthy]. rewrite in_app_iff, in_map_iff. split.
  - intros [H | [entry [He Hin]]]; [left; exact H|].
    apply filter_In in Hin as [Hin Ht]. right. exists entry.
    repeat split; [exact Hin | auto |]. subst p. apply truthy_nonempty, Ht.
  - intros [H | [entry [Hin [-> Hne]]]]; [left; exact H|].
    right. exists entry. split; [reflexivity|].
    apply filter_In. split; [exact Hin | apply truthy_nonempty, Hne].
Qed.

(** C4. A path is user code exactly when some active pattern occurs in it
    as a literal substring; the active patterns are the four defaults
    together with the entries of LOGGER_USER_CODE_PATHS between commas, each
    trimmed, those empty after trimming left out. *)
Theorem is_user_code_iff_active_pattern_occurs
    (environ : dict str) (file_path : str) :
  _is_user_code_frame environ file_path = true
  <-> exists p, active_pattern environ p /\ is_substring p file_path.
Proof.
  unfold _is_user_code_frame. rewrite existsb_exists. split.
  - intros [p [Hin Hc]]. exists p. split.
    + apply user_code_paths_active, Hin.
    + apply contains_substring, Hc.
  - intros [p [Hact Hsub]]. exists p. split.
    + apply user_code_paths_active, Hact.
    + apply contains_substring, Hsub.
Qed.

(** The override extends the defaults: they stay active whatever it holds. *)
Lemma defaults_always_active (environ : dict str) (p : str) :
  In p DEFAULT_USER_CODE_PATHS -> In p (_get_user_code_paths environ).
Proof. intros H. apply user_code_paths_active. left. exact H. Qed.

Example user_code_case_sensitive :
  _is_user_code_frame [] (lit "/opt/SRC/x.py") = false
  /\ _is_user_code_frame [] (lit "/opt/src/x.py") = true
  /\ _is_user_code_frame [(lit "LOGGER_USER_CODE_PATHS", lit " opt/ ,, ")]
                         (lit "/opt/SRC/x.py") = true
  /\ _is_user_code_frame [(lit "LOGGER_USER_CODE_PATHS", lit "*.py")]
                         (lit "/opt/SRC/x.py") = false.
Proof. repeat split; reflexivity. Qed.

(* ================================================================= *)
(** * The locals renderer *)

Lemma len_ellipsis : len ellipsis = 3%Z.
Proof. reflexivity. Qed.

Lemma bounded_repr_long (self : FocusedTracebackFormatter) (r : str) :
  (0 <= locals_max_string self)%Z ->
  (len r > locals_max_string self)%Z ->
  bounded_repr self r
  = firstn (Z.to_nat (locals_max_string self)) r ++ ellipsis
  /\ len (bounded_repr self r) = (locals_max_string self + len ellipsis)%Z.
Proof.
  intros H0 Hlong. unfold bounded_repr, slice_to.
  destruct (Z.gtb_spec (len r) (locals_max_string self)) as [_ | Hle]; [|lia].
  destruct (Z.ltb_spec (locals_max_string self) 0) as [Hneg | _]; [lia|].
  rewrite Z.min_l by lia. split; [reflexivity|].
  unfold len in *. rewrite length_app, length_firstn.
  change (List.length ellipsis) with 3%nat. lia.
Qed.

Lemma bounded_repr_short (self : FocusedTracebackFormatter) (r : str) :
  (len r <= locals_max_string self)%Z -> bounded_repr self r = r.
Proof.
  intros Hle. unfold bounded_repr.
  destruct (Z.gtb_spec (len r) (locals_max_string self)); [lia | reflexivity].
Qed.

(** C3. For a local whose representation is longer than [locals_max_string]
    (a non-negative limit), the line written for it holds, after the name
    and " = ", the first [locals_max_string] characters of the
    representation followed by the ellipsis "...", a text of length
    [locals_max_string + 3]; a representation within the limit is written
    as it is. *)
Theorem truncation_law
    (self : FocusedTracebackFormatter) (name : str) (value : object)
    (repr_value : str) :
  (0 <= locals_max_string self)%Z ->
  obj_repr value = Done repr_value ->
  print_local self (name, value)
  = ([lit "  " ++ [27%N] ++ lit "[32m" ++ name ++ [27%N] ++ lit "[0m = "
        ++ bounded_repr self repr_value ++ [10%N]],
     Done tt)
  /\ ((len repr_value > locals_max_string self)%Z ->
      bounded_repr self repr_value
      = firstn (Z.to_nat (locals_max_string self)) repr_value ++ lit "..."
      /\ len (bounded_repr self repr_value)
         = (locals_max_string self + len (lit "..."))%Z
      /\ len (lit "...") = 3%Z)
  /\ ((len repr_value <= locals_max_string self)%Z ->
      bounded_repr self repr_value = repr_value).
Proof.
  intros H0 Hrepr. split; [|split].
  - apply print_local_returns, Hrepr.
  - intros Hlong. destruct (bounded_repr_long self repr_value H0 Hlong).
    repeat split; assumption.
  - apply bounded_repr_short.
Qed.

Lemma truncation_law_witness :
  print_local default_formatter (lit "payload", long_value)
  = ([lit "  " ++ [27%N] ++ lit "[32mpayload" ++ [27%N] ++ lit "[0m = "
        ++ repeat 120%N 80 ++ lit "..." ++ [10%N]],
     Done tt)
  /\ len (repeat 120%N 80 ++ lit "...") = 83%Z.
Proof.
  destruct (truncation_law default_formatter (lit "payload") long_value
              (repr_value := repeat 120%N 81))
    as [Hline [Hlong _]]; [simpl; lia | reflexivity |].
  split; [exact Hline|].
  destruct Hlong as [_ [Hlen _]]; [vm_compute; reflexivity | exact Hlen].
Defined.

(** A line tells which name and which text it was written for, names
    holding no escape character. *)
Lemma local_line_inj (name name' text text' : str) :
  ~ In ESC name -> ~ In ESC name' ->
  local_line name text = local_line name' text' ->
  name = name' /\ text = text'.
Proof.
  intros Hn Hn' H. unfold local_line in H.
  apply app_inv_head in H. apply app_inv_head in H.
  unfold RESET in H. cbn [app] in H.
  apply cut_at_first in H as [Hname H]; [|assumption..].
  split; [exact Hname|].
  apply app_inv_head in H. apply app_inv_head in H.
  apply app_inv_tail in H. exact H.
Qed.

Lemma keep_local_not_dropped (k : str) (v : object) :
  keep_local k v = true <-> ~ dropped k v.
Proof.
  unfold keep_local, dropped. cbn [existsb].
  rewrite !andb_true_iff, !negb_true_iff, orb_false_r, orb_false_iff.
  rewrite !eqb_neq.
  pose proof (startswith_prefix (lit "_") k) as Hp.
  split.
  - intros [[Hs [H1 H2]] Hc] [Hu | [He | [He | He]]]; try contradiction.
    + apply Hp in Hu. congruence.
    + congruence.
  - intros Hd. repeat split.
    + destruct (startswith (lit "_") k); [|reflexivity].
      exfalso. apply Hd. left. apply Hp. reflexivity.
    + intros He. apply Hd. tauto.
    + intros He. apply Hd. tauto.
    + destruct (callable v); [|reflexivity]. exfalso. apply Hd. tauto.
Qed.

(** C2. For a frame whose locals form a dictionary, the bindings the
    renderer goes through are the original bindings without the dropped
    ones (underscore names, [self], [cls], callables), in their original
    order; and when no [repr] ends outside [Exception], the lines written
    after the frame header are one line per such binding, in that order,
    each made of two spaces, the name between the colour codes, " = ", the
    text of the value and a newline. *)
Theorem filtering_law (self : FocusedTracebackFormatter) (fi : frame_info) :
  dict_wf (fi_locals fi) ->
  let kept := filter (fun kv => keep_local (fst kv) (snd kv)) (fi_locals fi) in
  let text := fun v => match obj_repr v with
                       | Done repr_value => bounded_repr self repr_value
                       | Raised _ => lit "<repr failed>"
                       end in
  (forall k v, keep_local k v = true <-> ~ dropped k v)
  /\ filtered_locals (fi_locals fi) = kept
  /\ map fst (items (filtered_locals (fi_locals fi))) = map fst kept
  /\ (kept <> [] ->
      Forall (fun kv => repr_errs_only (snd kv) = true) kept ->
      print_frame self fi
      = (frame_header fi ::
           map (fun kv => lit "  " ++ [27%N] ++ lit "[32m" ++ fst kv
                            ++ [27%N] ++ lit "[0m = " ++ text (snd kv)
                            ++ [10%N])
               kept,
         Done tt)).
Proof.
  intros Hwf kept text.
  assert (Hf : filtered_locals (fi_locals fi) = kept)
    by (apply comprehension_filter, Hwf).
  split; [apply keep_local_not_dropped|]. split; [exact Hf|].
  split; [unfold items; rewrite Hf; reflexivity|].
  intros Hne Hsafe.
  rewrite print_frame_lines by (rewrite Hf; exact Hsafe).
  unfold frame_lines. rewrite Hf.
  destruct (fi_locals fi) as [|b bs] eqn:El.
  - exfalso. apply Hne. reflexivity.
  - cbn [is_empty]. destruct kept; [congruence | reflexivity].
Qed.

Lemma filtering_law_witness :
  map fst (items (filtered_locals (fi_locals demo_frame_info)))
  = [lit "user_id"; lit "data"]
  /\ print_frame default_formatter demo_frame_info
     = ([frame_header demo_frame_info;
         lit "  " ++ [27%N] ++ lit "[32muser_id" ++ [27%N]
           ++ lit "[0m = 42" ++ [10%N];
         lit "  " ++ [27%N] ++ lit "[32mdata" ++ [27%N]
           ++ lit "[0m = <repr failed>" ++ [10%N]],
        Done tt).
Proof.
  destruct (filtering_law default_formatter demo_frame_info)
    as [_ [_ [Hnames Hlines]]].
  - unfold dict_wf. repeat constructor; simpl; intuition discriminate.
  - split; [exact Hnames|].
    apply Hlines; [vm_compute; discriminate | repeat constructor].
Defined.

(** C5. A local whose [repr] raises an error gets the placeholder line,
    its name between the colour codes followed by " = <repr failed>" and a
    newline, and the loop goes on: the loop over the bindings is the loop
    over those before it, one write of that line, and the loop over those
    after it.  A chain in which every failing [repr] raises an error is
    rendered to the end without raising, every line fixed by its own
    binding alone. *)
Theorem hostile_repr_is_contained (self : FocusedTracebackFormatter) :
  let line := fun name text =>
                lit "  " ++ [27%N] ++ lit "[32m" ++ name ++ [27%N]
                  ++ lit "[0m = " ++ text ++ [10%N] in
  let text := fun v => match obj_repr v with
                       | Done repr_value => bounded_repr self repr_value
                       | Raised _ => lit "<repr failed>"
                       end in
  (forall name value e,
      obj_repr value = Raised e -> is_Exception e = true ->
      print_local self (name, value)
      = ([line name (lit "<repr failed>")], Done tt))
  /\ (forall before after name value e,
         obj_repr value = Raised e -> is_Exception e = true ->
         for_each (before ++ (name, value) :: after) (print_local self)
         = (for_each before (print_local self) ;;
            write (line name (lit "<repr failed>")) ;;
            for_each after (print_local self)))
  /\ (forall environ tb,
         let user_frames := collect_user_frames environ tb in
         reprs_err_only user_frames ->
         result (_print_user_code_locals self environ tb) = Done tt
         /\ written (_print_user_code_locals self environ tb)
            = if is_empty user_frames then []
              else section_header ::
                   List.concat
                     (map (fun fi =>
                             frame_header fi ::
                             (if is_empty (fi_locals fi)
                              then [no_local_variables]
                              else if is_empty (filtered_locals (fi_locals fi))
                              then [no_relevant_local_variables]
                              else map (fun kv => line (fst kv) (text (snd kv)))
                                       (filtered_locals (fi_locals fi))))
                          user_frames)).
Proof.
  intros line text. split; [|split].
  - intros name value e. apply print_local_caught.
  - intros before after name value e H He.
    rewrite for_each_app. cbn [for_each].
    rewrite (print_local_caught self name value H He). reflexivity.
  - intros environ tb user_frames Hsafe.
    rewrite (print_user_code_locals_lines self environ tb Hsafe).
    split; reflexivity.
Qed.

Lemma hostile_repr_is_contained_witness :
  result (_print_user_code_locals default_formatter [] demo_traceback)
  = Done tt
  /\ written (_print_user_code_locals default_formatter [] demo_traceback)
     = [section_header;
        frame_header demo_frame_info;
        lit "  " ++ [27%N] ++ lit "[32muser_id" ++ [27%N]
          ++ lit "[0m = 42" ++ [10%N];
        lit "  " ++ [27%N] ++ lit "[32mdata" ++ [27%N]
          ++ lit "[0m = <repr failed>" ++ [10%N]].
Proof.
  apply (proj2 (proj2 (hostile_repr_is_contained default_formatter))
           [] demo_traceback).
  repeat constructor.
Defined.

(* ================================================================= *)
(** * The formatter *)

Lemma no_user_frames (environ : dict str) (tb : traceback) :
  Forall (fun fi => _is_user_code_frame environ (fi_filename fi) = false)
         (all_frames tb) ->
  collect_user_frames environ tb = [].
Proof.
  rewrite collect_user_frames_filter.
  induction 1 as [|fi l Hfi _ IH]; simpl; [reflexivity|].
  rewrite Hfi. exact IH.
Qed.

Section Formatter.

Variables ExcType ExcValue : Type.
Variable rich_traceback :
  ExcType -> ExcValue -> traceback -> Z -> Z -> outcome str.

(** C6. When no frame of the traceback is user code, the focused part
    writes nothing, so the sink receives the text of the delegate and
    nothing else (and nothing at all if the delegate raised). *)
Theorem no_user_code_no_focused_section
    (self : FocusedTracebackFormatter) (environ : dict str)
    (exc_type : ExcType) (exc_value : ExcValue) (exc_tb : traceback) :
  Forall (fun fi => _is_user_code_frame environ (fi_filename fi) = false)
         (all_frames exc_tb) ->
  _print_user_code_locals self environ exc_tb = ([], Done tt)
  /\ __call__ rich_traceback self environ (exc_type, exc_value, exc_tb)
     = match rich_traceback exc_type exc_value exc_tb
               (width self) (max_frames self) with
       | Done text => ([text], Done tt)
       | Raised e => ([], Raised e)
       end.
Proof.
  intros H. apply no_user_frames in H.
  assert (Hp : _print_user_code_locals self environ exc_tb = ([], Done tt))
    by (unfold _print_user_code_locals; rewrite H; reflexivity).
  split; [exact Hp|].
  unfold __call__, lift. rewrite Hp.
  destruct (rich_traceback exc_type exc_value exc_tb _ _); reflexivity.
Qed.

End Formatter.

Lemma no_user_code_no_focused_section_witness :
  __call__ (fun (_ _ : unit) _ _ _ => Done (lit "Traceback ..."))
           default_formatter [] (tt, tt, library_traceback)
  = ([lit "Traceback ..."], Done tt).
Proof.
  apply (no_user_code_no_focused_section
           (fun (_ _ : unit) _ _ _ => Done (lit "Traceback ..."))
           default_formatter [] tt tt library_traceback).
  repeat constructor.
Defined.

Example frame_header_short_path :
  frame_header demo_frame_info
  = NL ++ YELLOW_BOLD ++ [POINTER]
       ++ lit " srv/app/service.py:17 in handle()" ++ RESET ++ NL.
Proof. reflexivity. Qed.

Example focused_output :
  __call__ (fun (_ _ : unit) _ _ _ => Done (lit "Traceback ..."))
           default_formatter [] (tt, tt, demo_traceback)
  = ([lit "Traceback ...";
      section_header;
      frame_header demo_frame_info;
      local_line (lit "user_id") (lit "42");
      local_line (lit "data") repr_failed],
     Done tt).
Proof. reflexivity. Qed.

(** A [repr] that ends with something other than an [Exception] is not
    caught: the line is not written and the call ends with it. *)
Example interrupt_propagates :
  print_local default_formatter
    (lit "x", interrupting)
  = ([], Raised (BaseOnly (lit "KeyboardInterrupt"))).
Proof. reflexivity. Qed.




(* ================================================================= *)
(** * Frames with locals against frames of the base trace *)

Lemma enumerate_from_snd {A} (i : Z) (l : list A) :
  map snd (enumerate_from i l) = l.
Proof.
  revert i; induction l as [|x l IH]; intros i; simpl; [reflexivity|].
  rewrite IH. reflexivity.
Qed.

Lemma enumerate_from_bounds {A} (i : Z) (l : list A) (ix : Z * A) :
  In ix (enumerate_from i l) -> (i <= fst ix < i + len l)%Z.
Proof.
  revert i; induction l as [|x l IH]; intros i; simpl; [intros []|].
  unfold len in *. simpl List.length. intros [<- | Hin].
  - simpl. lia.
  - apply IH in Hin. lia.
Qed.

Lemma enumerate_from_NoDup {A} (i : Z) (l : list A) :
  NoDup (enumerate_from i l).
Proof.
  revert i; induction l as [|x l IH]; intros i; simpl; constructor.
  - intros Hin. apply enumerate_from_bounds in Hin. simpl in Hin. lia.
  - apply IH.
Qed.

Lemma filter_map_snd {A} (f : A -> bool) (l : list (Z * A)) :
  map snd (filter (fun ix => f (snd ix)) l) = filter f (map snd l).
Proof.
  induction l as [|[i x] l IH]; simpl; [reflexivity|].
  destruct (f x); simpl; rewrite IH; reflexivity.
Qed.

(** The numbered frames with locals are the entries of [user_frames]. *)
Lemma frames_with_locals_user_frames (environ : dict str) (tb : traceback) :
  map snd (frames_with_locals environ tb) = collect_user_frames environ tb.
Proof.
  unfold frames_with_locals, numbered_frames.
  rewrite (filter_map_snd
             (fun fi => _is_user_code_frame environ (fi_filename fi))).
  rewrite enumerate_from_snd, collect_user_frames_filter. reflexivity.
Qed.

Lemma filter_all {A} (f : A -> bool) (l : list A) :
  (forall x, In x l -> f x = true) -> filter f l = l.
Proof.
  induction l as [|x l IH]; simpl; intros H; [reflexivity|].
  rewrite (H x) by (left; reflexivity).
  rewrite IH by (intros y Hy; apply H; right; exact Hy). reflexivity.
Qed.

(** The delegate hides nothing when it has no limit or the chain fits in
    the two halves it keeps. *)
Lemma rich_shows_all {A} (max_frames : Z) (frames : list A) :
  (max_frames <= 0 \/ len frames <= 2 * (Z.max 4 max_frames / 2))%Z ->
  rich_shown_frames max_frames frames = frames.
Proof.
  intros H. unfold rich_shown_frames, rich_frame_limit.
  destruct (Z.ltb_spec 0 max_frames) as [Hpos | Hnp]; [|reflexivity].
  destruct H as [H | H]; [lia|].
  destruct (Z.eqb_spec (Z.max 4 max_frames) 0) as [E | _]; [lia|].
  rewrite filter_all; [apply enumerate_from_snd|].
  intros ix Hin. apply enumerate_from_bounds in Hin.
  apply negb_true_iff, andb_false_iff.
  destruct (Z.leb_spec (Z.max 4 max_frames / 2) (fst ix));
    [right | left; reflexivity].
  apply Z.ltb_ge. lia.
Qed.

(** With a limit, the delegate shows no more frames than the limit. *)
Lemma rich_shown_within_limit {A} (max_frames : Z) (frames : list A) :
  (0 < max_frames)%Z ->
  (len (rich_shown_frames max_frames frames) <= Z.max 4 max_frames)%Z.
Proof.
  intros Hpos. unfold rich_shown_frames, rich_frame_limit.
  destruct (Z.ltb_spec 0 max_frames) as [_ | Hnp]; [|lia].
  destruct (Z.eqb_spec (Z.max 4 max_frames) 0) as [E | _]; [lia|].
  set (m := Z.max 4 max_frames). assert (Hm : (4 <= m)%Z) by lia.
  unfold len. rewrite length_map.
  set (shown := fun hi (ix : Z * A) =>
                  negb ((m / 2 <=? fst ix)%Z && (fst ix <? hi)%Z)).
  assert (Hgen : forall (i : Z) (l : list A) (hi : Z),
             (0 <= i)%Z ->
             (Z.of_nat (List.length (filter (shown hi) (enumerate_from i l)))
              <= Z.max 0 (m / 2 - i) + Z.max 0 (i + len l - Z.max hi i))%Z).
  { intros i l; revert i. induction l as [|x l IH]; intros i hi Hi.
    - simpl. unfold len. simpl. lia.
    - unfold shown in *. cbn [enumerate_from filter fst].
      specialize (IH (i + 1)%Z hi ltac:(lia)).
      unfold len in *. cbn [List.length] in *.
      destruct (Z.leb_spec (m / 2) i); destruct (Z.ltb_spec i hi);
        cbn [andb negb List.length]; lia. }
  specialize (Hgen 0%Z frames (Z.of_nat (List.length frames) - m / 2)%Z).
  unfold len, shown in Hgen. specialize (Hgen ltac:(lia)).
  assert (0 <= m / 2)%Z by (apply Z.div_pos; lia).
  assert (2 * (m / 2) <= m)%Z by (apply Z.mul_div_le; lia).
  lia.
Qed.

Example dev_formatter_installed :
  _get_dev_console_renderer [] = ([], Done (Focused dev_formatter)).
Proof. reflexivity. Qed.

(** C1, counterexample. Thirty-one nested user-code calls under the
    formatter of the development console ([max_frames = 30]): the base trace
    shows the frames at places 0 to 14 and 16 to 30 and hides the one at
    place 15; the focused section shows all thirty-one. *)
Lemma deep_stack_frame_hidden_in_base_trace :
  ~ incl (frames_with_locals [] (recursion_chain 31))
         (base_trace_frames dev_formatter (recursion_chain 31)).
Proof.
  intros H.
  assert (Hin : In (15%Z, {| fi_filename := lit "/srv/app/walk.py";
                             fi_lineno := 12; fi_name := lit "descend";
                             fi_locals := [] |})
                   (frames_with_locals [] (recursion_chain 31)))
    by (vm_compute; tauto).
  apply H in Hin. vm_compute in Hin.
  repeat (destruct Hin as [Hin | Hin]; [discriminate Hin|]).
  exact Hin.
Qed.

(** Whatever frames a base trace picks, if it keeps to a limit that the
    number of user-code frames exceeds, some frame shown with locals is not
    in it. *)
Lemma limited_base_trace_misses_a_frame
    (environ : dict str) (tb : traceback) (shown : list (Z * frame_info))
    (limit : nat) :
  (List.length shown <= limit)%nat ->
  (limit < List.length (collect_user_frames environ tb))%nat ->
  ~ incl (frames_with_locals environ tb) shown.
Proof.
  intros Hshown Hdeep Hincl.
  apply NoDup_incl_length in Hincl.
  - rewrite <- frames_with_locals_user_frames, length_map in Hdeep. lia.
  - apply NoDup_filter, enumerate_from_NoDup.
Qed.

Lemma length_enumerate_from {A} (i : Z) (l : list A) :
  List.length (enumerate_from i l) = List.length l.
Proof.
  rewrite <- (enumerate_from_snd i l) at 2. symmetry. apply length_map.
Qed.

Lemma enumerate_from_twice {A} (i : Z) (l : list A) :
  enumerate_from i (enumerate_from i l)
  = map (fun ix => (fst ix, ix)) (enumerate_from i l).
Proof.
  revert i. induction l as [|x l IH]; intros i; simpl; [reflexivity|].
  rewrite IH. reflexivity.
Qed.

Lemma rich_shown_incl {A} (max_frames : Z) (frames : list A) (x : A) :
  In x (rich_shown_frames max_frames frames) -> In x frames.
Proof.
  unfold rich_shown_frames. destruct (_ =? _)%Z; [tauto|].
  intros H. apply in_map_iff in H as [[i y] [Hy Hin]]. simpl in Hy. subst y.
  apply filter_In in Hin as [Hin _].
  rewrite <- (enumerate_from_snd 0 frames).
  apply in_map_iff. exists (i, x). split; [reflexivity | exact Hin].
Qed.

(** Which numbered frames the frame limit leaves in the trace. *)
Lemma in_rich_shown_numbered {A} (max_frames : Z) (l : list A) (ix : Z * A) :
  In ix (rich_shown_frames max_frames (enumerate_from 0 l))
  <-> In ix (enumerate_from 0 l)
      /\ (max_frames <= 0
          \/ fst ix < Z.max 4 max_frames / 2
          \/ len l - Z.max 4 max_frames / 2 <= fst ix)%Z.
Proof.
  unfold rich_shown_frames, rich_frame_limit.
  destruct (Z.ltb_spec 0 max_frames) as [Hpos | Hnp];
    [|simpl; intuition lia].
  destruct (Z.eqb_spec (Z.max 4 max_frames) 0) as [E | _]; [lia|].
  unfold len. rewrite length_enumerate_from, enumerate_from_twice.
  rewrite in_map_iff. split.
  - intros [[i y] [Hy Hin]]. simpl in Hy. subst y.
    apply filter_In in Hin as [Hin Hv].
    apply in_map_iff in Hin as [ix' [Heq Hin]]. inversion Heq; subst.
    split; [exact Hin|]. cbn [fst] in Hv.
    apply negb_true_iff, andb_false_iff in Hv as [Hv | Hv];
      [apply Z.leb_gt in Hv | apply Z.ltb_ge in Hv]; lia.
  - intros [Hin Hv]. exists (fst ix, ix). split; [reflexivity|].
    apply filter_In. split.
    + apply in_map_iff. exists ix. split; [reflexivity | exact Hin].
    + cbn [fst]. apply negb_true_iff, andb_false_iff.
      destruct Hv as [Hv | [Hv | Hv]]; [lia | left | right];
        [apply Z.leb_gt | apply Z.ltb_ge]; lia.
Qed.

Lemma rich_extract_from (frames stack : list (Z * frame_info)) :
  Forall (fun ix => rich_omit (snd ix) = false /\ rich_guard (snd ix) = false)
         frames ->
  fold_left rich_extract_step frames stack = stack ++ frames.
Proof.
  intros H. revert stack.
  induction H as [|ix frames [Ho Hg] _ IH]; intros stack; simpl.
  - rewrite app_nil_r. reflexivity.
  - unfold rich_extract_step at 2. rewrite Ho, Hg, IH, <- app_assoc.
    reflexivity.
Qed.

(** Without markers the delegate extracts the whole chain. *)
Lemma rich_extract_unmarked (tb : traceback) :
  unmarked tb -> rich_extract (numbered_frames tb) = numbered_frames tb.
Proof.
  intros H. unfold rich_extract. rewrite rich_extract_from; [reflexivity|].
  apply Forall_forall. intros [i fi] Hin. unfold unmarked in H.
  rewrite Forall_forall in H. apply H.
  unfold numbered_frames in Hin.
  rewrite <- (enumerate_from_snd 0 (all_frames tb)).
  apply in_map_iff. exists (i, fi). split; [reflexivity | exact Hin].
Qed.

Lemma rich_extract_in (frames stack : list (Z * frame_info))
    (ix : Z * frame_info) :
  In ix (fold_left rich_extract_step frames stack) ->
  In ix stack \/ In ix frames.
Proof.
  revert stack. induction frames as [|y frames IH]; intros stack; simpl;
    [tauto|].
  intros H. apply IH in H as [H | H]; [|tauto].
  unfold rich_extract_step in H.
  destruct (rich_omit (snd y)); [tauto|].
  destruct (rich_guard (snd y)); [destruct H|].
  apply in_app_iff in H as [H | [<- | []]]; tauto.
Qed.

(** A frame with a marker is in no stack the delegate extracts. *)
Lemma rich_extract_drops_marked (frames stack : list (Z * frame_info))
    (ix : Z * frame_info) :
  NoDup frames -> In ix frames -> ~ In ix stack ->
  rich_omit (snd ix) = true \/ rich_guard (snd ix) = true ->
  ~ In ix (fold_left rich_extract_step frames stack).
Proof.
  intros Hnd. revert stack.
  induction Hnd as [|y frames Hy Hnd IH]; intros stack Hin Hstack Hm;
    [destruct Hin|].
  simpl. destruct Hin as [-> | Hin].
  - intros H. apply rich_extract_in in H as [H | H]; [|contradiction].
    unfold rich_extract_step in H.
    destruct (rich_omit (snd ix)); [contradiction|].
    destruct (rich_guard (snd ix)); [destruct H|].
    destruct Hm; discriminate.
  - apply IH; [exact Hin | | exact Hm].
    unfold rich_extract_step.
    destruct (rich_omit (snd y)); [exact Hstack|].
    destruct (rich_guard (snd y)); [intros []|].
    intros H. apply in_app_iff in H as [H | [<- | []]]; contradiction.
Qed.

(** C1, amended. The frames shown with locals are the user-code frames of
    the whole chain, in chain order, whatever [max_frames] is.  Such a frame
    is missing from the base trace when the delegate leaves it out: always
    when its locals carry a true [_rich_traceback_omit] or
    [_rich_traceback_guard]; and, in a chain without these markers, exactly
    when [max_frames] is positive and its place lies in the window
    [m // 2 <= place < n - m // 2] that the frame limit hides
    ([m = max(4, max_frames)], [n] frames in the chain).  So in a chain
    without markers the frames shown with locals all are frames of the base
    trace when [max_frames] is not positive or [n <= 2 * (m // 2)]. *)
Theorem frames_with_locals_in_unabridged_base_trace
    (self : FocusedTracebackFormatter) (environ : dict str) (tb : traceback) :
  map snd (frames_with_locals environ tb) = collect_user_frames environ tb
  /\ incl (frames_with_locals environ tb) (numbered_frames tb)
  /\ (forall ix,
         In ix (frames_with_locals environ tb) ->
         rich_omit (snd ix) = true \/ rich_guard (snd ix) = true ->
         ~ In ix (base_trace_frames self tb))
  /\ (unmarked tb ->
      forall ix,
        In ix (frames_with_locals environ tb) ->
        (In ix (base_trace_frames self tb)
         <-> (max_frames self <= 0
              \/ fst ix < Z.max 4 (max_frames self) / 2
              \/ len (all_frames tb) - Z.max 4 (max_frames self) / 2
                 <= fst ix)%Z))
  /\ (unmarked tb ->
      (max_frames self <= 0
       \/ len (all_frames tb) <= 2 * (Z.max 4 (max_frames self) / 2))%Z ->
      incl (frames_with_locals environ tb) (base_trace_frames self tb)).
Proof.
  assert (Hsub : incl (frames_with_locals environ tb) (numbered_frames tb))
    by (intros ix Hin; apply filter_In in Hin; tauto).
  assert (Hshown : unmarked tb -> forall ix,
             In ix (numbered_frames tb) ->
             (In ix (base_trace_frames self tb)
              <-> (max_frames self <= 0
                   \/ fst ix < Z.max 4 (max_frames self) / 2
                   \/ len (all_frames tb) - Z.max 4 (max_frames self) / 2
                      <= fst ix)%Z)).
  { intros Hun ix Hin. unfold base_trace_frames.
    rewrite (rich_extract_unmarked Hun). unfold numbered_frames in *.
    rewrite in_rich_shown_numbered. tauto. }
  split; [apply frames_with_locals_user_frames|].
  split; [exact Hsub|]. split; [|split].
  - intros ix Hin Hm H. unfold base_trace_frames in H.
    apply rich_shown_incl in H. revert H.
    apply rich_extract_drops_marked;
      [apply enumerate_from_NoDup | apply Hsub, Hin | intros [] | exact Hm].
  - intros Hun ix Hin. apply Hshown; [exact Hun | apply Hsub, Hin].
  - intros Hun Hfit ix Hin. apply Hsub in Hin.
    apply (Hshown Hun ix Hin).
    apply enumerate_from_bounds in Hin. lia.
Qed.

Lemma frames_with_locals_in_unabridged_base_trace_witness :
  incl (frames_with_locals [] (recursion_chain 30))
       (base_trace_frames dev_formatter (recursion_chain 30)).
Proof.
  apply (frames_with_locals_in_unabridged_base_trace
           dev_formatter [] (recursion_chain 30)).
  - repeat constructor.
  - right. vm_compute. discriminate.
Defined.

(** A user-code frame that asks the delegate to omit it is left out of the
    base trace and still shown in the focused section. *)
Example omitted_frame_shown_with_locals :
  map fst (frames_with_locals [] omitting_traceback) = [0; 1]%Z
  /\ map fst (base_trace_frames default_formatter omitting_traceback) = [0%Z].
Proof. split; reflexivity. Qed.

(* ================================================================= *)
(** * Style selection *)

Lemma lower_char_cases (c : char) :
  (lower_char c = [c + 32] /\ 65 <= c <= 90)%N
  \/ (lower_char c = [c + 32] /\ 192 <= c <= 222)%N
  \/ lower_char c = [105; 775]%N
  \/ (lower_char c = [107] /\ c = 8490)%N
  \/ (lower_char c = [c] /\ ~ (65 <= c <= 90))%N.
Proof.
  unfold lower_char.
  destruct (N.leb_spec 65 c); destruct (N.leb_spec c 90); cbn [andb];
    try (left; split; [reflexivity | lia]).
  all: destruct (N.leb_spec 192 c); destruct (N.leb_spec c 222); cbn [andb];
    try (destruct (N.eqb_spec c 215); cbn [negb andb]);
    try (right; left; split; [reflexivity | lia]).
  all: destruct (N.eqb_spec c 304); [right; right; left; reflexivity|].
  all: destruct (N.eqb_spec c 8490);
    [right; right; right; left; split; [reflexivity | assumption]|].
  all: right; right; right; right; split; [reflexivity | lia].
Qed.

Lemma lower_char_of_letter (c d : char) :
  lowercase_letter c -> (d = c \/ d = c - 32)%N -> lower_char d = [c].
Proof.
  unfold lowercase_letter. intros Hc Hd.
  destruct (lower_char_cases d)
    as [[-> ?] | [[-> ?] | [E | [[-> ?] | [-> ?]]]]];
    try (f_equal; lia).
  unfold lower_char in E.
  destruct ((65 <=? d) && (d <=? 90))%N; [discriminate|].
  destruct ((192 <=? d) && (d <=? 222) && negb (d =? 215))%N; [discriminate|].
  destruct (N.eqb_spec d 304); [lia|].
  destruct (d =? 8490)%N; discriminate.
Qed.

(** Lowercasing a casing of a lowercase word gives the word. *)
Lemma lower_of_casing (word value : str) :
  Forall lowercase_letter word ->
  is_casing_of word value = true -> lower value = word.
Proof.
  intros Hw. revert value.
  induction Hw as [|c word Hc _ IH]; intros [|d value]; simpl;
    try discriminate; [reflexivity|].
  rewrite andb_true_iff, orb_true_iff, !N.eqb_eq. intros [Hd Hrest].
  rewrite (lower_char_of_letter Hc Hd). simpl. f_equal. apply IH, Hrest.
Qed.

(** Only the casings of a lowercase word without [k] lowercase to it. *)
Lemma casing_of_lower (word value : str) :
  Forall lowercase_letter word -> ~ In 107%N word ->
  lower value = word -> is_casing_of word value = true.
Proof.
  unfold lowercase_letter. revert word.
  induction value as [|d value IH]; intros word Hw Hk; simpl.
  - intros <-. reflexivity.
  - destruct (lower_char_cases d)
      as [[-> ?] | [[-> ?] | [-> | [[-> ?] | [-> ?]]]]];
      simpl; intros <-.
    + inversion Hw; subst. simpl. rewrite andb_true_iff. split.
      * apply orb_true_iff. right. apply N.eqb_eq. lia.
      * apply IH; [assumption | | reflexivity].
        intros Hin. apply Hk. right. exact Hin.
    + inversion Hw; subst. lia.
    + inversion Hw as [|? ? _ Hw']; subst. inversion Hw'; subst. lia.
    + exfalso. apply Hk. left. reflexivity.
    + inversion Hw; subst. simpl. rewrite N.eqb_refl. simpl.
      apply IH; [assumption | | reflexivity].
      intros Hin. apply Hk. right. exact Hin.
Qed.

Lemma style_values_lowercase (s : DevTracebackStyle) :
  Forall lowercase_letter (style_value s) /\ ~ In 107%N (style_value s).
Proof.
  destruct s; split;
    try (repeat constructor; unfold lowercase_letter; simpl; lia);
    simpl; intuition discriminate.
Qed.

Lemma style_of_value (s : DevTracebackStyle) :
  DevTracebackStyle_of (style_value s) = Done s.
Proof. destruct s; reflexivity. Qed.

Lemma style_of_other (value : str) :
  (forall s, value <> style_value s) ->
  DevTracebackStyle_of value = Raised ValueError.
Proof.
  intros H. unfold DevTracebackStyle_of.
  destruct (PyStr.eqb value (style_value FOCUSED)) eqn:E1;
    [apply eqb_eq in E1; elim (H FOCUSED E1)|].
  destruct (PyStr.eqb value (style_value RICH)) eqn:E2;
    [apply eqb_eq in E2; elim (H RICH E2)|].
  reflexivity.
Qed.

Lemma get_style_total (environ : dict str) :
  exists style, _get_dev_traceback_style environ = ([], Done style).
Proof.
  unfold _get_dev_traceback_style, DevTracebackStyle_of, lift.
  destruct (PyStr.eqb _ (style_value FOCUSED)); [eexists; reflexivity|].
  destruct (PyStr.eqb _ (style_value RICH)); eexists; reflexivity.
Qed.

(** C8. Style selection always returns a style and never raises; for a
    value of DEV_TRACEBACK_STYLE that names no style in any casing, the style
    it returns is FOCUSED. *)
Theorem unrecognized_style_falls_back (environ : dict str) (value : str) :
  dict_get (lit "DEV_TRACEBACK_STYLE") environ = Some value ->
  ~ recognized value ->
  _get_dev_traceback_style environ = ([], Done FOCUSED)
  /\ (forall environ', exists style,
         _get_dev_traceback_style environ' = ([], Done style)).
Proof.
  intros Hget Hnot. split; [|exact get_style_total].
  unfold _get_dev_traceback_style, getenv. rewrite Hget.
  rewrite style_of_other; [reflexivity|].
  intros s Hs. apply Hnot. exists s.
  destruct (style_values_lowercase s) as [Hl Hk].
  apply casing_of_lower; assumption.
Qed.

Lemma unrecognized_style_falls_back_witness :
  _get_dev_traceback_style [(lit "DEV_TRACEBACK_STYLE", lit "Verbose")]
  = ([], Done FOCUSED).
Proof.
  apply (@unrecognized_style_falls_back
           [(lit "DEV_TRACEBACK_STYLE", lit "Verbose")] (lit "Verbose")).
  - reflexivity.
  - intros [[|] H]; discriminate H.
Defined.

(** C10. The value of DEV_TRACEBACK_STYLE is lowercased before the lookup:
    for every casing of the value of a style, the lookup finds that style
    (no ValueError, no fallback) and style selection returns it. *)
Theorem style_matched_in_any_casing
    (environ : dict str) (value : str) (s : DevTracebackStyle) :
  dict_get (lit "DEV_TRACEBACK_STYLE") environ = Some value ->
  is_casing_of (style_value s) value = true ->
  lower value = style_value s
  /\ DevTracebackStyle_of (lower value) = Done s
  /\ _get_dev_traceback_style environ = ([], Done s).
Proof.
  intros Hget Hcase.
  assert (Hl : lower value = style_value s)
    by (apply lower_of_casing; [apply style_values_lowercase | exact Hcase]).
  split; [exact Hl|]. split; [rewrite Hl; apply style_of_value|].
  unfold _get_dev_traceback_style, getenv. rewrite Hget, Hl, style_of_value.
  reflexivity.
Qed.

Lemma style_matched_in_any_casing_witness :
  _get_dev_traceback_style [(lit "DEV_TRACEBACK_STYLE", lit "RICH")]
  = ([], Done RICH)
  /\ _get_dev_traceback_style [(lit "DEV_TRACEBACK_STYLE", lit "Focused")]
     = ([], Done FOCUSED).
Proof.
  split.
  - apply (@style_matched_in_any_casing
             [(lit "DEV_TRACEBACK_STYLE", lit "RICH")] (lit "RICH") RICH);
      reflexivity.
  - apply (@style_matched_in_any_casing
             [(lit "DEV_TRACEBACK_STYLE", lit "Focused")] (lit "Focused")
             FOCUSED); reflexivity.
Defined.

(** RICH is selected for the casings of "rich" and for nothing else. *)
Lemma rich_only_when_asked (environ : dict str) :
  _get_dev_traceback_style environ = ([], Done RICH) ->
  exists value, dict_get (lit "DEV_TRACEBACK_STYLE") environ = Some value
                /\ is_casing_of (lit "rich") value = true.
Proof.
  unfold _get_dev_traceback_style, getenv, DevTracebackStyle_of, lift.
  destruct (dict_get (lit "DEV_TRACEBACK_STYLE") environ) as [value|];
    [|discriminate].
  destruct (PyStr.eqb (lower value) (style_value FOCUSED)); [discriminate|].
  destruct (PyStr.eqb (lower value) (style_value RICH)) eqn:E; [|discriminate].
  intros _. exists value. split; [reflexivity|].
  apply eqb_eq in E. destruct (style_values_lowercase RICH).
  apply casing_of_lower; assumption.
Qed.

(* ================================================================= *)
(** * Request ids *)

(** C9. An event dictionary that has a "request_id" is returned as it is;
    otherwise one item is added, "request_id" bound to the generated text;
    either way every other key is bound as before. *)
Theorem add_request_id_only_adds_request_id
    (L : Type) (logger : L) (method_name uuid4 : str)
    (event_dict : dict field) :
  let out := add_request_id logger method_name uuid4 event_dict in
  (dict_contains (lit "request_id") event_dict = true -> out = event_dict)
  /\ (dict_contains (lit "request_id") event_dict = false ->
      out = event_dict ++ [(lit "request_id", FStr uuid4)]
      /\ dict_get (lit "request_id") out = Some (FStr uuid4))
  /\ (forall k, k <> lit "request_id" ->
                dict_get k out = dict_get k event_dict).
Proof.
  intros out. subst out. unfold add_request_id.
  destruct (dict_contains (lit "request_id") event_dict) eqn:E; cbn [negb].
  - split; [reflexivity|]. split; [discriminate | reflexivity].
  - split; [discriminate|]. split.
    + intros _. split; [|apply dict_get_set_same].
      apply dict_set_absent. intros Hin.
      apply dict_contains_in in Hin. congruence.
    + intros k Hk. apply dict_get_set_other. exact Hk.
Qed.

Lemma add_request_id_only_adds_request_id_witness :
  add_request_id tt (lit "info") (lit "3f2b8c1e") sample_event
  = sample_event ++ [(lit "request_id", FStr (lit "3f2b8c1e"))]
  /\ add_request_id tt (lit "info") (lit "3f2b8c1e")
       ((lit "request_id", FStr (lit "abc")) :: sample_event)
     = (lit "request_id", FStr (lit "abc")) :: sample_event.
Proof.
  split.
  - apply (proj1 (proj2 (add_request_id_only_adds_request_id
                           tt (lit "info") (lit "3f2b8c1e") sample_event))).
    reflexivity.
  - apply (proj1 (add_request_id_only_adds_request_id
                    tt (lit "info") (lit "3f2b8c1e")
                    ((lit "request_id", FStr (lit "abc")) :: sample_event))).
    reflexivity.
Defined.

(* ================================================================= *)
(** * More on the path classifier *)

Lemma in_join (sep : str) (parts : list str) (w : str) (c : char) :
  In w parts -> In c w -> In c (join sep parts).
Proof.
  induction parts as [|w0 parts IH]; [intros []|].
  intros [<- | Hin] Hc.
  - destruct parts; [exact Hc|]. cbn [join]. apply in_or_app. left. exact Hc.
  - destruct parts as [|w1 parts]; [destruct Hin|].
    cbn [join]. apply in_or_app. right. apply in_or_app. right.
    apply IH; assumption.
Qed.

Lemma in_split_piece (sep : char) (s w : str) (c : char) :
  In w (split sep s) -> In c w -> In c s /\ c <> sep.
Proof.
  intros Hw Hc. split.
  - rewrite <- (join_split sep s). apply in_join with w; assumption.
  - intros ->. pose proof (split_pieces_free sep s) as Hfree.
    rewrite Forall_forall in Hfree. apply (Hfree w Hw Hc).
Qed.

Lemma in_strip (s : str) (c : char) : In c (strip s) -> In c s.
Proof.
  intros H. destruct (strip_decompose s) as [l [r [Hs _]]].
  rewrite Hs. apply in_or_app. right. apply in_or_app. left. exact H.
Qed.

Lemma active_pattern_shape (environ : dict str) (p : str) :
  In p (_get_user_code_paths environ) -> well_formed_pattern p.
Proof.
  intros H. apply user_code_paths_active in H.
  destruct H as [H | [entry [Hin [-> Hne]]]].
  - unfold well_formed_pattern.
    destruct H as [<- | [<- | [<- | [<- | []]]]];
      (split; [discriminate|]); (split; [|split; reflexivity]);
      vm_compute; intuition discriminate.
  - split; [exact Hne|]. split; [|apply strip_ends].
    intros Hc. apply in_strip in Hc.
    apply (in_split_piece _ _ _ _ Hin) in Hc. destruct Hc as [_ Hc].
    apply Hc. reflexivity.
Qed.

(** X1. Whatever LOGGER_USER_CODE_PATHS holds, every pattern of the active
    set is non-empty, holds no comma, and neither begins nor ends with
    whitespace. *)
Theorem user_code_patterns_well_formed (environ : dict str) :
  Forall well_formed_pattern (_get_user_code_paths environ).
Proof. apply Forall_forall. intros p. apply active_pattern_shape. Qed.

Lemma contains_in_empty (p : str) : contains p [] = true -> p = [].
Proof. destruct p; simpl; [reflexivity | discriminate]. Qed.

(** X2. An empty file name is never user code, in any environment: no
    override can add the empty pattern, which would match every path. *)
Theorem empty_filename_never_user_code (environ : dict str) :
  _is_user_code_frame environ [] = false.
Proof.
  unfold _is_user_code_frame.
  destruct (existsb _ _) eqn:E; [|reflexivity].
  apply existsb_exists in E as [p [Hin Hc]].
  apply contains_in_empty in Hc. apply active_pattern_shape in Hin.
  destruct Hin as [Hne _]. contradiction.
Qed.

Lemma user_code_paths_extend (environ : dict str) :
  exists custom,
    _get_user_code_paths environ = DEFAULT_USER_CODE_PATHS ++ custom.
Proof.
  unfold _get_user_code_paths.
  destruct (truthy _); [eexists; reflexivity|].
  exists []. rewrite app_nil_r. reflexivity.
Qed.

(** X3. The override only extends: the defaults come first in the active
    list whatever the environment holds, and a path that is user code with
    no override is user code under every environment. *)
Theorem override_only_extends (environ : dict str) :
  (exists custom,
      _get_user_code_paths environ = DEFAULT_USER_CODE_PATHS ++ custom)
  /\ (forall filename,
         _is_user_code_frame [] filename = true ->
         _is_user_code_frame environ filename = true).
Proof.
  split; [apply user_code_paths_extend|].
  unfold _is_user_code_frame. intros filename H.
  apply existsb_exists in H as [p [Hin Hc]].
  apply existsb_exists. exists p. split; [|exact Hc].
  apply defaults_always_active. exact Hin.
Qed.

Lemma is_substring_extend (p s pre post : str) :
  is_substring p s -> is_substring p (pre ++ s ++ post).
Proof.
  intros [a [b ->]]. exists (pre ++ a), (b ++ post).
  rewrite <- !app_assoc. reflexivity.
Qed.

(** X4. Classification is by occurrence anywhere in the path: a path that
    has a user-code path inside it, after any prefix and before any suffix,
    is user code too. *)
Theorem user_code_anywhere_in_path
    (environ : dict str) (filename pre post : str) :
  _is_user_code_frame environ filename = true ->
  _is_user_code_frame environ (pre ++ filename ++ post) = true.
Proof.
  unfold _is_user_code_frame. intros H.
  apply existsb_exists in H as [p [Hin Hc]].
  apply existsb_exists. exists p. split; [exact Hin|].
  apply contains_substring, is_substring_extend, contains_substring, Hc.
Qed.

Lemma user_code_anywhere_in_path_witness :
  _is_user_code_frame []
    (lit "/usr/lib/python3/site-packages/pkg/" ++ lit "src/" ++ lit "mod.py")
  = true.
Proof.
  apply (user_code_anywhere_in_path []
           (lit "src/") (lit "/usr/lib/python3/site-packages/pkg/")
           (lit "mod.py")).
  reflexivity.
Defined.

Lemma lstrip_blank (s : str) : forallb isspace s = true -> lstrip s = [].
Proof.
  induction s as [|c s IH]; simpl; [reflexivity|].
  destruct (isspace c); [exact IH | discriminate].
Qed.

Lemma strip_blank (s : str) : forallb isspace s = true -> strip s = [].
Proof.
  intros H. unfold strip, rstrip. rewrite (lstrip_blank s H). reflexivity.
Qed.

Lemma filter_none {A} (f : A -> bool) (l : list A) :
  (forall x, In x l -> f x = false) -> filter f l = [].
Proof.
  induction l as [|x l IH]; simpl; intros H; [reflexivity|].
  rewrite (H x) by (left; reflexivity).
  apply IH. intros y Hy. apply H. right. exact Hy.
Qed.

(** X5. An override made of commas and whitespace alone adds no pattern:
    the active list is the default list. *)
Theorem blank_override_adds_nothing (environ : dict str) (value : str) :
  dict_get (lit "LOGGER_USER_CODE_PATHS") environ = Some value ->
  forallb (fun c => isspace c || N.eqb c comma) value = true ->
  _get_user_code_paths environ = DEFAULT_USER_CODE_PATHS.
Proof.
  intros Hget Hblank. unfold _get_user_code_paths, getenv. rewrite Hget.
  destruct (truthy value); [|reflexivity].
  replace (filter (fun p => truthy (strip p)) (split comma value))
    with (@nil str); [apply app_nil_r|].
  symmetry. apply filter_none. intros w Hw.
  rewrite strip_blank; [reflexivity|].
  apply forallb_forall. intros c Hc.
  destruct (in_split_piece _ _ _ _ Hw Hc) as [Hin Hne].
  rewrite forallb_forall in Hblank. specialize (Hblank c Hin).
  apply orb_true_iff in Hblank as [Hs | He]; [exact Hs|].
  apply N.eqb_eq in He. contradiction.
Qed.

Lemma blank_override_adds_nothing_witness :
  _get_user_code_paths [(lit "LOGGER_USER_CODE_PATHS", lit " , ,,  ")]
  = DEFAULT_USER_CODE_PATHS.
Proof.
  apply (@blank_override_adds_nothing
           [(lit "LOGGER_USER_CODE_PATHS", lit " , ,,  ")] (lit " , ,,  "));
    reflexivity.
Defined.

(* ================================================================= *)
(** * More on the focused section *)

(** X6. The focused section reads [locals_max_string] and nothing else of
    the formatter: two formatters that agree on it write the same section,
    whatever their [width] and [max_frames]. *)
Theorem focused_section_ignores_width_and_max_frames
    (self self' : FocusedTracebackFormatter) (environ : dict str)
    (tb : traceback) :
  locals_max_string self = locals_max_string self' ->
  _print_user_code_locals self environ tb
  = _print_user_code_locals self' environ tb.
Proof.
  destruct self as [w m l], self' as [w' m' l']. cbn [locals_max_string].
  intros ->. reflexivity.
Qed.

Lemma focused_section_ignores_width_and_max_frames_witness :
  _print_user_code_locals default_formatter [] demo_traceback
  = _print_user_code_locals
      {| width := 40; max_frames := 1; locals_max_string := 80 |}
      [] demo_traceback.
Proof.
  apply (focused_section_ignores_width_and_max_frames
           default_formatter
           {| width := 40; max_frames := 1; locals_max_string := 80 |}).
  reflexivity.
Defined.

(** ** The compact path *)

Lemma frame_header_uses_short_path (fi : frame_info) :
  frame_header fi
  = NL ++ YELLOW_BOLD ++ [POINTER] ++ lit " " ++ short_path (fi_filename fi)
       ++ lit ":" ++ str_of_int (fi_lineno fi) ++ lit " in "
       ++ fi_name fi ++ lit "()" ++ RESET ++ NL.
Proof. reflexivity. Qed.

Lemma slice_from_last_three {A} (l : list A) :
  slice_from l (-3) = skipn (List.length l - 3) l.
Proof.
  unfold slice_from, len. cbn [Z.ltb Z.compare].
  f_equal. lia.
Qed.

Lemma join_app (sep : str) (a b : list str) :
  a <> [] -> b <> [] -> join sep (a ++ b) = join sep a ++ sep ++ join sep b.
Proof.
  intros Ha Hb. induction a as [|w a IH]; [congruence|].
  destruct a as [|w' a].
  - destruct b; [congruence | reflexivity].
  - change (join sep ((w :: w' :: a) ++ b))
      with (w ++ sep ++ join sep ((w' :: a) ++ b)).
    rewrite IH by discriminate.
    change (join sep (w :: w' :: a)) with (w ++ sep ++ join sep (w' :: a)).
    rewrite <- !app_assoc. reflexivity.
Qed.

Lemma occurrences_app (c : char) (a b : str) :
  occurrences c (a ++ b) = (occurrences c a + occurrences c b)%nat.
Proof. unfold occurrences. rewrite filter_app, length_app. reflexivity. Qed.

Lemma occurrences_absent (c : char) (s : str) :
  ~ In c s -> occurrences c s = 0%nat.
Proof.
  intros H. unfold occurrences. rewrite filter_none; [reflexivity|].
  intros x Hx. apply N.eqb_neq. intros ->. contradiction.
Qed.

Lemma occurrences_join (sep : char) (parts : list str) :
  Forall (fun w => ~ In sep w) parts ->
  occurrences sep (join [sep] parts) = (List.length parts - 1)%nat.
Proof.
  induction 1 as [|w parts Hw Hparts IH]; [reflexivity|].
  destruct parts as [|w' parts].
  - simpl. apply occurrences_absent, Hw.
  - change (join [sep] (w :: w' :: parts))
      with (w ++ [sep] ++ join [sep] (w' :: parts)).
    rewrite !occurrences_app, IH, (@occurrences_absent sep w Hw).
    unfold occurrences at 1. simpl. rewrite N.eqb_refl. simpl. lia.
Qed.

Lemma occurrences_split (sep : char) (s : str) :
  List.length (split sep s) = S (occurrences sep s).
Proof.
  pose proof (@occurrences_join sep _ (split_pieces_free sep s)) as H.
  rewrite join_split in H. rewrite H.
  pose proof (split_nonempty sep s).
  destruct (split sep s); simpl; [congruence | lia].
Qed.

Lemma Forall_skipn {A} (P : A -> Prop) (n : nat) (l : list A) :
  Forall P l -> Forall P (skipn n l).
Proof.
  intros H. rewrite <- (firstn_skipn n l) in H.
  apply Forall_app in H. tauto.
Qed.

(** X7. The path shown in a frame header is the end of the file name
    from its third-to-last segment on: it is a suffix of the file name that
    begins at a segment boundary, it holds two slashes when the file name
    holds more than two, and it is the whole file name otherwise. *)
Theorem short_path_is_last_three_segments (fi : frame_info) :
  let filename := fi_filename fi in
  frame_header fi
  = NL ++ YELLOW_BOLD ++ [POINTER] ++ lit " " ++ short_path filename
       ++ lit ":" ++ str_of_int (fi_lineno fi) ++ lit " in "
       ++ fi_name fi ++ lit "()" ++ RESET ++ NL
  /\ (short_path filename = filename
      \/ exists pre, filename = pre ++ [slash] ++ short_path filename)
  /\ occurrences slash (short_path filename)
     = Nat.min 2 (occurrences slash filename)
  /\ ((occurrences slash filename <= 2)%nat -> short_path filename = filename).
Proof.
  intros filename. split; [apply frame_header_uses_short_path|].
  unfold short_path. rewrite slice_from_last_three.
  pose proof (occurrences_split slash filename) as Hlen.
  pose proof (split_pieces_free slash filename) as Hfree.
  pose proof (join_split slash filename) as Hjoin.
  set (l := split slash filename) in *.
  assert (Hwhole : (occurrences slash filename <= 2)%nat ->
                   join [slash] (skipn (List.length l - 3) l) = filename).
  { intros Hle. replace (List.length l - 3)%nat with 0%nat by lia.
    exact Hjoin. }
  split; [|split; [|exact Hwhole]].
  - destruct (Nat.le_gt_cases (occurrences slash filename) 2) as [Hle | Hgt];
      [left; apply Hwhole, Hle|].
    right. exists (join [slash] (firstn (List.length l - 3) l)).
    rewrite <- join_app.
    + rewrite firstn_skipn. symmetry. exact Hjoin.
    + intros E. apply (f_equal (@List.length str)) in E.
      rewrite length_firstn in E. simpl in E. lia.
    + intros E. apply (f_equal (@List.length str)) in E.
      rewrite length_skipn in E. simpl in E. lia.
  - rewrite occurrences_join by (apply Forall_skipn, Hfree).
    rewrite length_skipn. lia.
Qed.

(** ** Bounded lines *)

Lemma len_local_line (name text : str) :
  len (local_line name text) = (len name + len text + 15)%Z.
Proof.
  unfold local_line, len. rewrite !length_app. simpl List.length. lia.
Qed.

Lemma len_bounded_repr (self : FocusedTracebackFormatter) (r : str) :
  (0 <= locals_max_string self)%Z ->
  (len (bounded_repr self r) <= locals_max_string self + 3)%Z.
Proof.
  intros H0.
  destruct (Z.le_gt_cases (len r) (locals_max_string self)) as [Hle | Hgt].
  - rewrite bounded_repr_short by exact Hle. lia.
  - destruct (bounded_repr_long self r H0) as [_ H]; [lia|].
    rewrite H, len_ellipsis. lia.
Qed.

(** X8. With a non-negative [locals_max_string], whatever a value's
    [repr] returns or raises, the line written for it is no longer than the
    name plus the larger of [locals_max_string + 3] and the placeholder's 13
    characters, plus the 15 characters of indentation, colour codes, " = "
    and the newline. *)
Theorem local_line_is_bounded
    (self : FocusedTracebackFormatter) (name : str) (value : object) :
  (0 <= locals_max_string self)%Z ->
  Forall (fun line =>
            (len line
             <= len name + Z.max (locals_max_string self + 3) 13 + 15)%Z)
         (written (print_local self (name, value))).
Proof.
  intros H0. destruct (obj_repr value) as [r | e] eqn:E.
  - rewrite (print_local_returns self name value E).
    constructor; [|constructor]. rewrite len_local_line.
    pose proof (len_bounded_repr self r H0). lia.
  - destruct (is_Exception e) eqn:He.
    + rewrite (print_local_caught self name value E He).
      constructor; [|constructor]. rewrite len_local_line.
      change (len repr_failed) with 13%Z. lia.
    + rewrite (print_local_escapes self name value E He). constructor.
Qed.

Lemma local_line_is_bounded_witness :
  Forall (fun line =>
            (len line <= len (lit "payload") + Z.max (80 + 3) 13 + 15)%Z)
         (written (print_local default_formatter
                     (lit "payload",
                      {| obj_callable := false;
                         obj_repr := Done (repeat 120%N 500);
                         obj_truthy := true |}))).
Proof.
  apply (local_line_is_bounded default_formatter (lit "payload")
           {| obj_callable := false; obj_repr := Done (repeat 120%N 500);
              obj_truthy := true |}).
  simpl. lia.
Defined.

(** ** A [repr] that ends outside [Exception] *)

Lemma is_empty_middle {A} (l1 l2 : list A) (x : A) :
  is_empty (l1 ++ x :: l2) = false.
Proof. destruct l1; reflexivity. Qed.

Lemma print_locals_escape (self : FocusedTracebackFormatter)
    (before after : list (str * object)) (name : str) (value : object)
    (e : exn) :
  Forall (fun kv => repr_errs_only (snd kv) = true) before ->
  obj_repr value = Raised e -> is_Exception e = false ->
  for_each (before ++ (name, value) :: after) (print_local self)
  = (local_lines self before, Raised e).
Proof.
  intros Hsafe Hr He. rewrite for_each_app.
  rewrite (print_locals_lines self Hsafe). cbn [for_each].
  rewrite (print_local_escapes self name value Hr He).
  simpl. rewrite app_nil_r. reflexivity.
Qed.

Lemma print_frame_escape (self : FocusedTracebackFormatter) (fi : frame_info)
    (before after : list (str * object)) (name : str) (value : object)
    (e : exn) :
  filtered_locals (fi_locals fi) = before ++ (name, value) :: after ->
  Forall (fun kv => repr_errs_only (snd kv) = true) before ->
  obj_repr value = Raised e -> is_Exception e = false ->
  print_frame self fi = (frame_header fi :: local_lines self before, Raised e).
Proof.
  intros Hf Hsafe Hr He. unfold print_frame. rewrite bind_write.
  destruct (fi_locals fi) as [|b bs] eqn:El.
  - destruct before; discriminate Hf.
  - cbn [is_empty]. rewrite Hf, is_empty_middle. unfold items.
    rewrite (@print_locals_escape self before after name value e Hsafe Hr He).
    reflexivity.
Qed.

Section Escape.

Variables ExcType ExcValue : Type.
Variable rich_traceback :
  ExcType -> ExcValue -> traceback -> Z -> Z -> outcome str.

(** X9. A [repr] that raises outside [Exception] (a KeyboardInterrupt, a
    SystemExit) is not swallowed: the call ends with that exception; the
    base trace, the frames before, the header of the frame and the lines of
    the locals before the value stay written; nothing after them is. *)
Theorem interrupt_in_repr_propagates
    (self : FocusedTracebackFormatter) (environ : dict str)
    (exc_type : ExcType) (exc_value : ExcValue) (exc_tb : traceback)
    (text : str) (frames_before frames_after : list frame_info)
    (fi : frame_info) (before after : list (str * object))
    (name : str) (value : object) (e : exn) :
  rich_traceback exc_type exc_value exc_tb (width self) (max_frames self)
  = Done text ->
  collect_user_frames environ exc_tb = frames_before ++ fi :: frames_after ->
  reprs_err_only frames_before ->
  filtered_locals (fi_locals fi) = before ++ (name, value) :: after ->
  Forall (fun kv => repr_errs_only (snd kv) = true) before ->
  obj_repr value = Raised e -> is_Exception e = false ->
  __call__ rich_traceback self environ (exc_type, exc_value, exc_tb)
  = (text :: section_header
       :: List.concat (map (frame_lines self) frames_before)
       ++ frame_header fi :: local_lines self before,
     Raised e).
Proof.
  intros Hrich Hframes Hsafe_frames Hf Hsafe Hr He.
  assert (Hp : _print_user_code_locals self environ exc_tb
               = (section_header
                    :: List.concat (map (frame_lines self) frames_before)
                    ++ frame_header fi :: local_lines self before,
                  Raised e)).
  { unfold _print_user_code_locals.
    rewrite Hframes, is_empty_middle, bind_write, for_each_app.
    rewrite for_each_done with (out := frame_lines self)
      by (apply Forall_impl with (2 := Hsafe_frames);
          intros fi'; apply print_frame_lines).
    cbn [for_each].
    rewrite (@print_frame_escape self fi before after name value e
               Hf Hsafe Hr He).
    reflexivity. }
  unfold __call__, lift. rewrite Hrich, Hp. reflexivity.
Qed.

End Escape.

Lemma interrupt_in_repr_propagates_witness :
  __call__ (fun (_ _ : unit) _ _ _ => Done (lit "Traceback ..."))
           default_formatter []
           (tt, tt,
            TbNode (frame_of "/srv/app/jobs.py" "run" interrupted_locals) 8
                   TbNone)
  = ([lit "Traceback ...";
      section_header;
      frame_header {| fi_filename := lit "/srv/app/jobs.py"; fi_lineno := 8;
                      fi_name := lit "run"; fi_locals := interrupted_locals |};
      local_line (lit "n") (lit "3")],
     Raised (BaseOnly (lit "KeyboardInterrupt"))).
Proof.
  apply (@interrupt_in_repr_propagates unit unit
           (fun _ _ _ _ _ => Done (lit "Traceback ..."))
           default_formatter [] tt tt
           (TbNode (frame_of "/srv/app/jobs.py" "run" interrupted_locals) 8
                   TbNone)
           (lit "Traceback ...") [] []
           {| fi_filename := lit "/srv/app/jobs.py"; fi_lineno := 8;
              fi_name := lit "run"; fi_locals := interrupted_locals |}
           [(lit "n", showing "3")] [(lit "rest", showing "[]")]
           (lit "job")
           interrupting
           (BaseOnly (lit "KeyboardInterrupt")));
    try reflexivity; repeat constructor.
Defined.

(** ** The frames listed *)

Lemma filter_enumerate_sorted {A} (f : Z * A -> bool) (i : Z) (l : list A) :
  StronglySorted Z.lt (map fst (filter f (enumerate_from i l))).
Proof.
  revert i. induction l as [|x l IH]; intros i; simpl; [constructor|].
  destruct (f (i, x)); [|apply IH].
  simpl. constructor; [apply IH|].
  apply Forall_forall. intros j Hj.
  apply in_map_iff in Hj as [[j' y] [<- Hin]].
  apply filter_In in Hin as [Hin _].
  apply enumerate_from_bounds in Hin. simpl in *. lia.
Qed.

(** X10. The focused section lists the user-code frames of the chain and
    only them, each place of the chain at most once and in chain order; a
    chain that is user code throughout is listed whole. *)
Theorem user_frames_once_in_chain_order
    (environ : dict str) (tb : traceback) :
  map snd (frames_with_locals environ tb) = collect_user_frames environ tb
  /\ StronglySorted Z.lt (map fst (frames_with_locals environ tb))
  /\ (forall i fi,
         In (i, fi) (frames_with_locals environ tb)
         <-> In (i, fi) (numbered_frames tb)
             /\ _is_user_code_frame environ (fi_filename fi) = true)
  /\ (Forall (fun fi => _is_user_code_frame environ (fi_filename fi) = true)
             (all_frames tb) ->
      collect_user_frames environ tb = all_frames tb).
Proof.
  split; [apply frames_with_locals_user_frames|].
  split; [apply filter_enumerate_sorted|].
  split; [intros i fi; unfold frames_with_locals; apply filter_In|].
  intros Hall. rewrite collect_user_frames_filter.
  apply filter_all. apply Forall_forall. exact Hall.
Qed.

(* ================================================================= *)
(** * More on the logger *)

(** ** The enrichment processors *)

Section DictSetFacts.

Variable V : Type.
Implicit Types (d : dict V) (k : str) (v : V).

Lemma dict_set_keys k v d :
  map fst (dict_set k v d)
  = if dict_contains k d then map fst d else map fst d ++ [k].
Proof.
  unfold dict_contains. induction d as [|[k' v'] d IH]; simpl; [reflexivity|].
  destruct (PyStr.eqb k' k) eqn:E; simpl; [reflexivity|].
  rewrite IH. destruct (dict_get k d); reflexivity.
Qed.

Lemma dict_set_set k v v' d :
  dict_set k v' (dict_set k v d) = dict_set k v' d.
Proof.
  induction d as [|[k0 v0] d IH]; simpl.
  - rewrite eqb_refl. reflexivity.
  - destruct (PyStr.eqb k0 k) eqn:E; simpl; rewrite E; [reflexivity|].
    rewrite IH. reflexivity.
Qed.

Lemma dict_contains_set_same k v d : dict_contains k (dict_set k v d) = true.
Proof. unfold dict_contains. rewrite dict_get_set_same. reflexivity. Qed.

Lemma dict_contains_set_other k k' v d :
  k' <> k -> dict_contains k' (dict_set k v d) = dict_contains k' d.
Proof.
  intros H. unfold dict_contains. rewrite dict_get_set_other by exact H.
  reflexivity.
Qed.

End DictSetFacts.

Section Processors.

Variables (L : Type) (logger : L) (method_name : str).

(** X11. A request id, once in the record, stays: a later call of
    [add_request_id], whatever it would have generated, returns the record
    as the first call left it. *)
Theorem request_id_is_assigned_once
    (uuid4 uuid4' : str) (event_dict : dict field) :
  let first := add_request_id logger method_name uuid4 event_dict in
  dict_contains (lit "request_id") first = true
  /\ add_request_id logger method_name uuid4' first = first.
Proof.
  intros first.
  assert (H : dict_contains (lit "request_id") first = true).
  { subst first. unfold add_request_id.
    destruct (dict_contains (lit "request_id") event_dict) eqn:E; cbn [negb];
      [exact E | apply dict_contains_set_same]. }
  split; [exact H|]. unfold add_request_id at 1. rewrite H. reflexivity.
Qed.

(** X12. [add_timestamp] always stamps: afterwards "timestamp" is bound to
    the text of this call, also when the record already had one, which
    then keeps its place; every other key is bound as before; and of two
    calls in a row the later one decides. *)
Theorem add_timestamp_overwrites
    (strftime strftime' : str) (event_dict : dict field) :
  let out := add_timestamp logger method_name strftime event_dict in
  dict_get (lit "timestamp") out = Some (FStr strftime)
  /\ (forall k, k <> lit "timestamp" ->
                dict_get k out = dict_get k event_dict)
  /\ map fst out
     = (if dict_contains (lit "timestamp") event_dict
        then map fst event_dict
        else map fst event_dict ++ [lit "timestamp"])
  /\ add_timestamp logger method_name strftime' out
     = add_timestamp logger method_name strftime' event_dict.
Proof.
  intros out. subst out. unfold add_timestamp.
  split; [apply dict_get_set_same|].
  split; [intros k Hk; apply dict_get_set_other, Hk|].
  split; [apply dict_set_keys | apply dict_set_set].
Qed.

(** X14. After [add_timestamp] and then [add_request_id], as the pipeline
    runs them, the record binds "timestamp" to the text of this call,
    "request_id" to the caller's value if there was one and to the
    generated text otherwise, and every other key as before; run in the
    other order they bind every key the same way. *)
Theorem timestamp_then_request_id
    (strftime uuid4 : str) (event_dict : dict field) :
  let out := add_request_id logger method_name uuid4
               (add_timestamp logger method_name strftime event_dict) in
  dict_get (lit "timestamp") out = Some (FStr strftime)
  /\ dict_get (lit "request_id") out
     = match dict_get (lit "request_id") event_dict with
       | Some supplied => Some supplied
       | None => Some (FStr uuid4)
       end
  /\ (forall k, k <> lit "timestamp" -> k <> lit "request_id" ->
                dict_get k out = dict_get k event_dict)
  /\ (forall k,
         dict_get k out
         = dict_get k (add_timestamp logger method_name strftime
                         (add_request_id logger method_name uuid4
                            event_dict))).
Proof.
  intros out. subst out. unfold add_request_id, add_timestamp.
  assert (Hne : lit "request_id" <> lit "timestamp") by discriminate.
  rewrite (dict_contains_set_other (FStr strftime) event_dict Hne).
  unfold dict_contains.
  destruct (dict_get (lit "request_id") event_dict) as [supplied|] eqn:E;
    cbn [negb].
  - split; [apply dict_get_set_same|].
    split; [rewrite dict_get_set_other by exact Hne; exact E|].
    split; [intros k Hk _; apply dict_get_set_other, Hk | reflexivity].
  - split; [rewrite dict_get_set_other by congruence;
            apply dict_get_set_same|].
    split; [apply dict_get_set_same|].
    split; [intros k Hk Hk'; rewrite !dict_get_set_other by assumption;
            reflexivity|].
    intros k.
    destruct (list_eq_dec N.eq_dec k (lit "timestamp")) as [-> | Hk].
    + rewrite dict_get_set_other by congruence.
      rewrite !dict_get_set_same. reflexivity.
    + rewrite (dict_get_set_other (FStr strftime) _ Hk).
      destruct (list_eq_dec N.eq_dec k (lit "request_id")) as [-> | Hk'].
      * rewrite !dict_get_set_same. reflexivity.
      * rewrite !dict_get_set_other by assumption. reflexivity.
Qed.

End Processors.

(** ** The renderer *)

Lemma style_of_casing (environ : dict str) (value : str)
    (s : DevTracebackStyle) :
  dict_get (lit "DEV_TRACEBACK_STYLE") environ = Some value ->
  is_casing_of (style_value s) value = true ->
  _get_dev_traceback_style environ = ([], Done s).
Proof.
  intros Hget Hcase. unfold _get_dev_traceback_style, getenv.
  rewrite Hget, (@lower_of_casing (style_value s) value),
    style_of_value; [reflexivity | apply style_values_lowercase | exact Hcase].
Qed.

(** X15. The development console gets Rich's own formatter with locals for
    every frame (width 120, 30 frames) exactly when DEV_TRACEBACK_STYLE is
    "rich" in some casing; in every other environment, the variable unset
    included, it gets the focused formatter (width 120, 30 frames, 120
    characters per value); it never raises. *)
Theorem dev_console_renderer_by_style (environ : dict str) :
  (asks_for_rich environ
   /\ _get_dev_console_renderer environ
      = ([], Done (RichTracebackFormatter 120 30 true)))
  \/ (~ asks_for_rich environ
      /\ _get_dev_console_renderer environ
         = ([], Done (Focused {| width := 120; max_frames := 30;
                                 locals_max_string := 120 |}))).
Proof.
  destruct (get_style_total environ) as [[|] Hstyle].
  - right. split.
    + intros [value [Hget Hcase]].
      rewrite (@style_of_casing environ value RICH Hget Hcase) in Hstyle.
      discriminate.
    + unfold _get_dev_console_renderer. rewrite Hstyle. reflexivity.
  - left. split.
    + apply rich_only_when_asked, Hstyle.
    + unfold _get_dev_console_renderer. rewrite Hstyle. reflexivity.
Qed.

Lemma dev_console_renderer_cases (environ : dict str) :
  exists formatter, _get_dev_console_renderer environ = ([], Done formatter).
Proof.
  destruct (get_style_total environ) as [style Hstyle].
  unfold _get_dev_console_renderer. rewrite Hstyle.
  destruct style; eexists; reflexivity.
Qed.

Lemma true_word : Forall lowercase_letter (lit "true")
                  /\ ~ In 107%N (lit "true").
Proof.
  split; [repeat constructor; unfold lowercase_letter; simpl; lia|].
  simpl. intuition discriminate.
Qed.

Lemma lower_is_true (value : str) :
  PyStr.eqb (lower value) (lit "true") = is_casing_of (lit "true") value.
Proof.
  destruct true_word as [Hl Hk].
  destruct (is_casing_of (lit "true") value) eqn:E.
  - apply eqb_eq, lower_of_casing; assumption.
  - apply eqb_neq. intros H.
    rewrite (@casing_of_lower (lit "true") value Hl Hk H) in E. discriminate.
Qed.

(** X16. [init_logger] ends its processors with the JSON renderer exactly
    when IS_PROD is "true" in some casing, and then DEV_TRACEBACK_STYLE
    plays no part; for every other value ("1" and "yes" included) it ends
    them with the console renderer of the development style; an exception
    of [get_env_or_throw] ends the call.  The seven processors before the
    renderer are the same in all cases. *)
Theorem init_logger_renderer_by_is_prod
    (is_prod : outcome str) (environ : dict str) :
  match is_prod with
  | Raised e => init_logger_processors is_prod environ = ([], Raised e)
  | Done value =>
      if is_casing_of (lit "true") value
      then init_logger_processors is_prod environ
           = ([], Done (base_processors ++ [JSONRenderer]))
      else exists formatter,
          _get_dev_console_renderer environ = ([], Done formatter)
          /\ init_logger_processors is_prod environ
             = ([], Done (base_processors ++ [ConsoleRenderer formatter]))
  end.
Proof.
  destruct is_prod as [value | e]; [|reflexivity].
  unfold init_logger_processors, lift. cbn [bind app].
  rewrite lower_is_true.
  destruct (is_casing_of (lit "true") value); [reflexivity|].
  destruct (dev_console_renderer_cases environ) as [formatter H].
  exists formatter. split; [exact H|]. rewrite H. reflexivity.
Qed.

(* ================================================================= *)
(** * The demonstration script *)

Lemma demo_environ_style (argv : list str) (environ : dict str) :
  dict_get (lit "DEV_TRACEBACK_STYLE") (demo_environ argv environ)
  = Some (if (len argv >? 1)%Z
             && PyStr.eqb (lower (nth 1 argv [])) (lit "rich")
          then lit "rich" else lit "focused").
Proof.
  unfold demo_environ. destruct (_ && _); apply dict_get_set_same.
Qed.

Lemma demo_environ_paths (argv : list str) (environ : dict str) :
  dict_get (lit "LOGGER_USER_CODE_PATHS") (demo_environ argv environ)
  = Some (lit "backend-common").
Proof.
  unfold demo_environ.
  destruct (_ && _); rewrite dict_get_set_other by discriminate;
    apply dict_get_set_same.
Qed.

Lemma lower_is_rich (value : str) :
  PyStr.eqb (lower value) (lit "rich") = is_casing_of (lit "rich") value.
Proof.
  destruct (style_values_lowercase RICH) as [Hl Hk].
  destruct (is_casing_of (lit "rich") value) eqn:E.
  - apply eqb_eq. apply (@lower_of_casing (lit "rich") value Hl E).
  - apply eqb_neq. intros H.
    rewrite (@casing_of_lower (lit "rich") value Hl Hk H) in E. discriminate.
Qed.

(** X17. Whatever the environment held before, the script ends up with
    Rich's own formatter exactly when its first argument is "rich" in some
    casing, and with the focused formatter otherwise, no argument included;
    and every path with "backend-common" in it is user code. *)
Theorem demo_style_follows_first_argument
    (argv : list str) (environ : dict str) :
  let environ' := demo_environ argv environ in
  _get_dev_console_renderer environ'
  = ([], Done (match nth_error argv 1 with
               | Some arg =>
                   if is_casing_of (lit "rich") arg
                   then RichTracebackFormatter 120 30 true
                   else Focused dev_formatter
               | None => Focused dev_formatter
               end))
  /\ (forall pre post,
         _is_user_code_frame environ'
           (pre ++ lit "backend-common" ++ post) = true).
Proof.
  intros environ'. subst environ'. split.
  - unfold _get_dev_console_renderer, _get_dev_traceback_style, getenv.
    rewrite demo_environ_style.
    destruct argv as [|a0 [|a1 rest]]; try reflexivity.
    replace (len (a0 :: a1 :: rest) >? 1)%Z with true
      by (symmetry; apply Z.gtb_lt; unfold len; simpl List.length; lia).
    cbn [nth nth_error andb]. rewrite lower_is_rich.
    destruct (is_casing_of (lit "rich") a1); reflexivity.
  - intros pre post. unfold _is_user_code_frame.
    apply existsb_exists. exists (lit "backend-common"). split.
    + unfold _get_user_code_paths, getenv. rewrite demo_environ_paths.
      vm_compute. tauto.
    + apply contains_substring. exists pre, post. reflexivity.
Qed.

(* ================================================================= *)
(** * When the focused section appears *)

Lemma written_bind {A B} (m : io A) (k : A -> io B) :
  exists more, written (bind m k) = written m ++ more.
Proof.
  destruct m as [w [a | e]]; simpl.
  - destruct (k a) as [w' r]. exists w'. reflexivity.
  - exists []. rewrite app_nil_r. reflexivity.
Qed.

Lemma filter_nil_all_false {A} (f : A -> bool) (l : list A) :
  filter f l = [] -> Forall (fun x => f x = false) l.
Proof.
  induction l as [|x l IH]; simpl; [constructor|].
  destruct (f x) eqn:E; [discriminate|]. intros H. constructor; auto.
Qed.

(** X18. The focused section is written exactly when some frame of the
    chain is user code: with none the call writes nothing, and otherwise
    its output begins with the section header followed by the header of the
    first user-code frame, whatever the locals do afterwards. *)
Theorem focused_section_iff_some_user_frame
    (self : FocusedTracebackFormatter) (environ : dict str) (tb : traceback) :
  (written (_print_user_code_locals self environ tb) = []
   <-> Forall (fun fi => _is_user_code_frame environ (fi_filename fi) = false)
              (all_frames tb))
  /\ (forall fi rest,
         collect_user_frames environ tb = fi :: rest ->
         exists more,
           written (_print_user_code_locals self environ tb)
           = section_header :: frame_header fi :: more).
Proof.
  assert (Hhead : forall fi rest,
             collect_user_frames environ tb = fi :: rest ->
             exists more,
               written (_print_user_code_locals self environ tb)
               = section_header :: frame_header fi :: more).
  { intros fi rest H. unfold _print_user_code_locals. rewrite H.
    cbn [is_empty for_each]. rewrite bind_write. cbn [written fst].
    destruct (written_bind (print_frame self fi)
                (fun _ => for_each rest (print_frame self))) as [more Hm].
    destruct (print_frame_header_first self fi) as [lines Hl].
    rewrite Hm, Hl. exists (lines ++ more). reflexivity. }
  split; [|exact Hhead]. split.
  - intros Hw. destruct (collect_user_frames environ tb) as [|fi rest] eqn:E.
    + rewrite collect_user_frames_filter in E.
      apply filter_nil_all_false in E. exact E.
    + destruct (Hhead fi rest eq_refl) as [more Hm]. congruence.
  - intros Hall. apply no_user_frames in Hall.
    unfold _print_user_code_locals. rewrite Hall. reflexivity.
Qed.
